(** * ggif: newest-file discovery, conversion pipeline, upload and watch loop

    A shallow embedding of [cmd/ggif/main.go] (the convert-and-upload
    program, with its watch-mode revision) and of the upload-only variant
    that adds the S3 uploader.  Pure Go functions are Rocq functions; code
    that logs, runs external commands, prints, touches the clipboard or the
    file system threads an explicit [World] through a small state-and-exit
    monad, where [log.Fatal] is the exit. *)

From Stdlib Require Import ZArith List Bool Lia.
From Stdlib Require Import Sorting.Permutation.
From Stdlib Require Import Strings.String Strings.Ascii.
From Stdlib Require Import Numbers.DecimalString.
Import ListNotations.

Local Open Scope list_scope.
Local Open Scope string_scope.
Local Open Scope Z_scope.

(** ** Go library functions the program calls

    [path/filepath] on a Unix target (separator [/], no volume names),
    [fmt.Sprintf] with the verbs the program uses. *)

Module filepath.

Definition Separator : ascii := "/"%char.

Definition IsPathSeparator (c : ascii) : bool := Ascii.eqb c Separator.

(** The path elements between separators, empty ones included:
    [elements "a//b" = ["a"; ""; "b"]], [elements "" = [""]]. *)
Fixpoint elements (path : string) : list string :=
  match path with
  | EmptyString => [""]
  | String c rest =>
      if IsPathSeparator c then "" :: elements rest
      else match elements rest with
           | e :: es => String c e :: es
           | [] => [String c ""]
           end
  end.

Definition rooted (path : string) : bool :=
  match path with
  | String c _ => IsPathSeparator c
  | EmptyString => false
  end.

(** One turn of the loop of [Clean], on the element that starts at the
    read index.  [out] is the output buffer as the stack of the elements
    written so far, last written first.  The index [dotdot] of the Go code
    is the end of the leading run of [..] elements (or of the leading
    slash), so [out.w > dotdot] holds exactly when the last element
    written is a real one. *)
Definition clean_step (isRooted : bool) (out : list string) (e : string)
  : list string :=
  if String.eqb e "" then out                (* empty path element *)
  else if String.eqb e "." then out          (* . element *)
  else if String.eqb e ".." then             (* .. element *)
    match out with
    | top :: below =>
        if String.eqb top ".." then ".." :: out   (* not rooted: append .. *)
        else below                                (* can backtrack *)
    | [] => if isRooted then [] else [".."]
    end
  else e :: out.                             (* real path element *)

(** The buffer as a string: elements separated by single slashes. *)
Definition buffer (isRooted : bool) (out : list string) : string :=
  (if isRooted then "/" else "") ++ String.concat "/" (rev out).

Definition Clean (path : string) : string :=
  if String.eqb path "" then "."
  else
    let out := fold_left (clean_step (rooted path)) (elements path) [] in
    if negb (rooted path) && (List.length out =? 0)%nat then "."
    else buffer (rooted path) out.

(** [Join] ignores leading empty elements, joins the rest with the
    separator and cleans the result; all elements empty gives [""]. *)
Fixpoint Join (elem : list string) : string :=
  match elem with
  | [] => ""
  | e :: rest =>
      if String.eqb e "" then Join rest
      else Clean (String.concat "/" elem)
  end.

(** [Ext]: the suffix of the last element that starts at its final dot;
    empty when that element has no dot. *)
Fixpoint ext_from (e : string) : string :=
  match e with
  | EmptyString => ""
  | String c rest =>
      match ext_from rest with
      | EmptyString => if Ascii.eqb c "."%char then e else ""
      | x => x
      end
  end.

Definition Ext (path : string) : string := ext_from (last (elements path) "").

(** [Base]: the last element of the path once trailing slashes are gone;
    ["."] for the empty path and ["/"] for a path of slashes only. *)
Definition Base (path : string) : string :=
  if String.eqb path "" then "."
  else
    match filter (fun e => negb (String.eqb e "")) (elements path) with
    | [] => "/"
    | e :: es => last es e
    end.

(** [Dir]: [Clean] of the path up to and including its last separator,
    that is, of the path without its last element. *)
Definition Dir (path : string) : string :=
  match removelast (elements path) with
  | [] => Clean ""
  | init => Clean (String.concat "/" init ++ "/")
  end.

(** No byte of [s] is a separator. *)
Fixpoint no_sep (s : string) : bool :=
  match s with
  | EmptyString => true
  | String c rest => negb (IsPathSeparator c) && no_sep rest
  end.

(** [e] is what the loop of [Clean] copies as a real path element. *)
Definition real (e : string) : bool :=
  negb (String.eqb e "") && negb (String.eqb e ".")
  && negb (String.eqb e "..") && no_sep e.

(** The shape of the output buffer of [Clean]: real elements above a run
    of [..] elements, which only a path that is not rooted can have. *)
Fixpoint normal (isRooted : bool) (out : list string) : bool :=
  match out with
  | [] => true
  | a :: below =>
      normal isRooted below &&
      (real a ||
       (String.eqb a ".." && negb isRooted &&
        match below with
        | [] => true
        | b :: _ => String.eqb b ".."
        end))
  end.

End filepath.

Module strings.

Definition HasSuffix (s suffix : string) : bool :=
  (String.length suffix <=? String.length s)%nat &&
  String.eqb
    (String.substring (String.length s - String.length suffix)
       (String.length suffix) s)
    suffix.

Definition TrimSuffix (s suffix : string) : string :=
  if HasSuffix s suffix
  then String.substring 0 (String.length s - String.length suffix) s
  else s.

End strings.

Module fmt.

(** The verb [%d] on an integer: decimal digits, a minus sign when
    negative. *)
Definition d (n : Z) : string := NilZero.string_of_int (Z.to_int n).

End fmt.

Module strings_fold.

(** An ASCII letter in upper case; other bytes as they are. *)
Definition upper (ch : ascii) : ascii :=
  let n := nat_of_ascii ch in
  if ((97 <=? n) && (n <=? 122))%nat then ascii_of_nat (n - 32) else ch.

Fixpoint ToUpper (s : string) : string :=
  match s with
  | EmptyString => EmptyString
  | String ch rest => String (upper ch) (ToUpper rest)
  end.

(** [strings.EqualFold] against a name in upper-case ASCII letters that has
    neither K nor S, the two letters that fold to a character outside
    ASCII: the bytes agree once ASCII letters are put in upper case. *)
Definition EqualFold (name s : string) : bool := String.eqb name (ToUpper s).

End strings_fold.


(** ** The world the program runs in *)

(** A Go [error], by its message. *)
Definition error : Type := string.

(** What the scan sees of one directory entry: its name from
    [ioutil.ReadDir], the result of [os.Stat] on its path (the error, or
    [ModTime().Unix()] of the file info, an int64), and whether
    [filetype.IsVideo] accepts the bytes [ioutil.ReadFile] gave for it. *)
Record DirEntry : Type := {
  Name : string;
  Stat : error + Z;
  IsVideo : bool
}.

(** The machine the program shares with the commands it runs. *)
Record Sys : Type := {
  ReadDir : string -> list DirEntry;  (* listing of a directory; [[]] on error *)
  paths : list string;                (* scratch paths that exist on disk *)
  clipboard : string;                 (* contents of the system clipboard *)
  Now : Z                             (* [time.Now().Unix()] *)
}.

(** The operating system's answers that the program does not decide. *)
Record OS : Type := {
  (* [exec.Command(argv...).CombinedOutput()]: the command may change the
     machine at will; it gives its combined output and its error. *)
  CombinedOutput : list string -> Sys -> Sys * (string * option error);
  (* [ioutil.TempDir(dir, prefix)]: the random suffix of the name it
     picks, or its error. *)
  TempDirSuffix : string -> string -> Sys -> error + string;
  (* [fsnotify.NewWatcher()] and [watcher.Add(dir)]: their errors. *)
  NewWatcherErr : Sys -> option error;
  AddErr : string -> Sys -> option error;
  (* [clipboard.WriteAll(text)]: its error, as when the machine has no
     clipboard utility. *)
  ClipboardWriteErr : string -> Sys -> option error
}.

Module fsnotify.

(** [Op] is a bit mask (uint32): [Create = 1 << iota], then [Write],
    [Remove], [Rename], [Chmod]. *)
Definition Op : Type := Z.
Definition Create : Op := Z.shiftl 1 0.
Definition Write : Op := Z.shiftl 1 1.
Definition Remove : Op := Z.shiftl 1 2.
Definition Rename : Op := Z.shiftl 1 3.
Definition Chmod : Op := Z.shiftl 1 4.

Record Event : Type := { EventName : string; EventOp : Op }.

End fsnotify.

Inductive Level : Type := CRITICAL | ERROR | WARNING | NOTICE | INFO | DEBUG.

Module logging.

Definition levelNames : list (string * Level) :=
  [("CRITICAL", CRITICAL); ("ERROR", ERROR); ("WARNING", WARNING);
   ("NOTICE", NOTICE); ("INFO", INFO); ("DEBUG", DEBUG)].

Definition ErrInvalidLogLevel : error := "logger: invalid log level".

(** [LogLevel]: the first level whose name equals [level] under case
    folding, or [ErrInvalidLogLevel]. *)
Fixpoint find_level (names : list (string * Level)) (level : string)
  : error + Level :=
  match names with
  | [] => inl ErrInvalidLogLevel
  | (name, l) :: rest =>
      if strings_fold.EqualFold name level then inr l
      else find_level rest level
  end.

Definition LogLevel (level : string) : error + Level :=
  find_level levelNames level.

End logging.

(** An operand of a logging call, before formatting. *)
Inductive LogArg : Type :=
| Str (s : string)
| Strs (l : list string)
| Err (e : error)
| Ev (e : fsnotify.Event).

Record LogRecord : Type := { level : Level; operands : list LogArg }.

Record World : Type := {
  sys : Sys;
  stdout : list string;          (* lines printed with [fmt.Println] *)
  logs : list LogRecord;         (* calls on the logger, in order *)
  commands : list (list string); (* argv of the external commands run *)
  pipeline : list string         (* ghost: source paths [process] was entered on *)
}.

(** ** State and exit: the effect of a Go function on the world *)

Inductive Outcome (A : Type) : Type :=
| Returns (a : A) (w : World)   (* the function returned *)
| Exits (code : Z) (w : World). (* [os.Exit], reached through [log.Fatal] *)
Arguments Returns {A} a w.
Arguments Exits {A} code w.

Definition M (A : Type) : Type := World -> Outcome A.

Definition ret {A : Type} (a : A) : M A := fun w => Returns a w.

Definition bind {A B : Type} (m : M A) (k : A -> M B) : M B :=
  fun w =>
    match m w with
    | Returns a w' => k a w'
    | Exits code w' => Exits code w'
    end.

Notation "x <- m ;; k" := (bind m (fun x => k))
  (at level 61, m at next level, right associativity).
Notation "m ;;; k" := (bind m (fun _ => k))
  (at level 61, right associativity).

(** [defer cleanup] around [body]: the deferred call runs when the function
    returns; [os.Exit] does not run deferred calls. *)
Definition defer {A : Type} (cleanup : M unit) (body : M A) : M A :=
  fun w =>
    match body w with
    | Returns a w' =>
        match cleanup w' with
        | Returns _ w'' => Returns a w''
        | Exits code w'' => Exits code w''
        end
    | Exits code w' => Exits code w'
    end.

Definition world_of {A : Type} (o : Outcome A) : World :=
  match o with
  | Returns _ w => w
  | Exits _ w => w
  end.

Definition returned {A : Type} (o : Outcome A) : bool :=
  match o with
  | Returns _ _ => true
  | Exits _ _ => false
  end.

Definition with_path (name : string) (s : Sys) : Sys :=
  {| ReadDir := ReadDir s; paths := name :: paths s;
     clipboard := clipboard s; Now := Now s |}.

Definition with_clipboard (text : string) (s : Sys) : Sys :=
  {| ReadDir := ReadDir s; paths := paths s;
     clipboard := text; Now := Now s |}.

Definition set_sys (s : Sys) (w : World) : World :=
  {| sys := s; stdout := stdout w; logs := logs w;
     commands := commands w; pipeline := pipeline w |}.

Definition get_sys : M Sys := fun w => Returns (sys w) w.

Definition put_sys (s : Sys) : M unit := fun w => Returns tt (set_sys s w).

Definition log_call (l : Level) (ops : list LogArg) : M unit :=
  fun w =>
    Returns tt
      {| sys := sys w; stdout := stdout w;
         logs := (logs w ++ [{| level := l; operands := ops |}])%list;
         commands := commands w; pipeline := pipeline w |}.

Definition log_Debug (ops : list LogArg) : M unit := log_call DEBUG ops.
Definition log_Error (ops : list LogArg) : M unit := log_call ERROR ops.

(** [log.Fatal]: a CRITICAL record, then [os.Exit(1)]. *)
Definition log_Fatal {A : Type} (ops : list LogArg) : M A :=
  fun w =>
    match log_call CRITICAL ops w with
    | Returns _ w' => Exits 1 w'
    | Exits code w' => Exits code w'
    end.

Definition fmt_Println (s : string) : M unit :=
  fun w =>
    Returns tt
      {| sys := sys w; stdout := (stdout w ++ [s])%list; logs := logs w;
         commands := commands w; pipeline := pipeline w |}.

(** The machine after [clipboard.WriteAll(text)]: the clipboard holds the
    text when the write succeeds and is left as it was when it fails. *)
Definition clipboard_written (os : OS) (text : string) (s : Sys) : Sys :=
  match ClipboardWriteErr os text s with
  | None => with_clipboard text s
  | Some _ => s
  end.

(** [clipboard.WriteAll]; the program drops the error it returns. *)
Definition clipboard_WriteAll (os : OS) (s : string) : M unit :=
  fun w =>
    Returns tt (set_sys (clipboard_written os s (sys w)) w).

Definition time_Now_Unix : M Z := fun w => Returns (Now (sys w)) w.

Definition has_prefix (p s : string) : bool := String.prefix p s.

(** The final element of [path] is [.]. *)
Definition endsWithDot (path : string) : bool :=
  String.eqb (last (filepath.elements path) "") ".".

(** [os.RemoveAll]: the path and everything below it is gone.  It does
    nothing on the empty path and refuses a path that ends in a dot; the
    program drops the error it returns. *)
Definition os_RemoveAll (path : string) : M unit :=
  fun w =>
    let keep (p : string) :=
      negb (String.eqb p path || has_prefix (path ++ "/") p) in
    Returns tt
      (set_sys {| ReadDir := ReadDir (sys w);
                  paths := if String.eqb path "" || endsWithDot path
                           then paths (sys w)
                           else filter keep (paths (sys w));
                  clipboard := clipboard (sys w); Now := Now (sys w) |} w).

Definition record_command (argv : list string) : M unit :=
  fun w =>
    Returns tt
      {| sys := sys w; stdout := stdout w; logs := logs w;
         commands := (commands w ++ [argv])%list; pipeline := pipeline w |}.

(** Ghost step: notes that [process] was entered on [videoFile]. *)
Definition enter_pipeline (videoFile : string) : M unit :=
  fun w =>
    Returns tt
      {| sys := sys w; stdout := stdout w; logs := logs w;
         commands := commands w; pipeline := (pipeline w ++ [videoFile])%list |}.

(** [cli.Context]: the positional arguments and the flags by name. *)
Record Context : Type := {
  Args : list string;
  String_ : string -> string;
  Int : string -> Z;
  Bool_ : string -> bool
}.


(** ** The program *)

Definition printError (err : option error) : M unit :=
  match err with
  | Some e => log_Error [Str e]
  | None => ret tt
  end.

Definition printOutput (outs : string) : M unit :=
  if (0 <? String.length outs)%nat then log_Debug [Str outs] else ret tt.

(** The [range] loop of [findNewestFile] over the listing, from the current
    [newestFile] and [newestTime]. *)
Fixpoint range_files (files : list DirEntry) (newestFile : string)
    (newestTime : Z) : M string :=
  match files with
  | [] => ret newestFile
  | f :: rest =>
      if negb (IsVideo f) then range_files rest newestFile newestTime
      else
        match Stat f with
        | inl err =>
            log_Error [Str err] ;;; range_files rest newestFile newestTime
        | inr currTime =>
            if currTime >? newestTime
            then range_files rest (Name f) currTime
            else range_files rest newestFile newestTime
        end
  end.

Definition findNewestFile (dir : string) : M string :=
  s <- get_sys ;;
  newestFile <- range_files (ReadDir s dir) "" 0 ;;
  ret (filepath.Join [dir; newestFile]).

Section Program.

Variable os : OS.

Definition runCmd (name : string) (arg : list string) : M unit :=
  let argv := name :: arg in
  log_Debug [Strs argv] ;;;
  s <- get_sys ;;
  let '(s', (output, err)) := CombinedOutput os argv s in
  put_sys s' ;;;
  record_command argv ;;;
  printOutput output ;;;
  printError err.

Definition ioutil_TempDir (dir prefix : string) : M (error + string) :=
  s <- get_sys ;;
  match TempDirSuffix os dir prefix s with
  | inl err => ret (inl err)
  | inr suffix =>
      let name := filepath.Join [dir; prefix ++ suffix] in
      put_sys (with_path name s) ;;;
      ret (inr name)
  end.

Definition createTmpDir : M string :=
  r <- ioutil_TempDir "/tmp" "pngs" ;;
  match r with
  | inl err => log_Fatal [Err err]
  | inr dir => ret dir
  end.

(** [cmdin] of [createGif]: the encoder's command line. *)
Definition cmdin (c : Context) (tmpDir outfn : string) : string :=
  let infn := filepath.Join [tmpDir; "*.png"] in
  "gifski -W " ++ fmt.d (Int c "width") ++ " -r " ++ fmt.d (Int c "frames")
  ++ " -Q " ++ fmt.d (Int c "quality") ++ " -o " ++ outfn ++ " " ++ infn.

Definition createGif (c : Context) (tmpDir outfn : string) : M unit :=
  runCmd "/bin/sh" ["-c"; cmdin c tmpDir outfn].

Definition uploadGCP (bucket outfn outputFile : string) : M unit :=
  if String.eqb bucket "" then ret tt
  else
    runCmd "gsutil" ["cp"; outfn; "gs://" ++ bucket] ;;;
    let url :=
      "https://storage.googleapis.com/" ++ bucket ++ "/" ++ outputFile in
    fmt_Println url ;;;
    clipboard_WriteAll os url.

Definition uploadS3 (bucket videoFile bucketFile : string) : M unit :=
  if String.eqb bucket "" then ret tt
  else
    runCmd "aws"
      ["s3"; "cp"; videoFile; "s3://" ++ bucket ++ "/" ++ bucketFile;
       "--acl"; "public-read"] ;;;
    let url := "https://" ++ bucket ++ ".s3.amazonaws.com/" ++ bucketFile in
    fmt_Println url ;;;
    clipboard_WriteAll os url.

Definition no_file_message : string :=
  "No file specified and no file found in config.Src, exiting".

(** The name and the path of the gif, from the clock reading [newName]:
    [outputFile] and [outfn] of [process]. *)
Definition outputFile (newName : Z) : string := fmt.d newName ++ ".gif".

Definition distDir (c : Context) : string :=
  if String.eqb (String_ c "dist") "" then String_ c "src"
  else String_ c "dist".

Definition outfn (c : Context) (newName : Z) : string :=
  filepath.Join [distDir c; outputFile newName].

(** The body that the revisions of [process] share once the video file is
    known: scratch directory, frames, gif, upload. *)
Definition convert (c : Context) (videoFile : string) : M unit :=
  (if String.eqb videoFile "" then log_Fatal [Str no_file_message]
   else ret tt) ;;;
  tmpDir <- createTmpDir ;;
  defer (os_RemoveAll tmpDir)
    (let tmpfn := filepath.Join [tmpDir; "frame%04d.png"] in
     runCmd "ffmpeg" ["-i"; videoFile; tmpfn] ;;;
     newName <- time_Now_Unix ;;
     createGif c tmpDir (outfn c newName) ;;;
     uploadGCP (String_ c "bucket") (outfn c newName) (outputFile newName)).

(** [process] of the first revision of [main.go]: it picks the video file
    itself. *)
Definition process (c : Context) : M unit :=
  videoFile <-
    (if (1 <=? List.length (Args c))%nat then ret (nth 0 (Args c) "")
     else findNewestFile (String_ c "src")) ;;
  convert c videoFile.

(** What the watcher's goroutine receives, in the order its [select] takes
    it; the end of the list is a closed channel, on which the goroutine
    returns. *)
Inductive Received : Type :=
| FromEvents (event : fsnotify.Event)
| FromErrors (err : error).

(** The goroutine of [watch], the same text in both revisions that have it,
    over the [process] of its revision. *)
Fixpoint eventLoop (process : Context -> string -> M unit) (c : Context)
    (received : list Received) : M unit :=
  match received with
  | [] => ret tt
  | FromEvents event :: rest =>
      log_Debug [Str "event:"; Ev event] ;;;
      (if Z.land (fsnotify.EventOp event) fsnotify.Create =? fsnotify.Create
       then
         log_Debug [Str "modified file:"; Str (fsnotify.EventName event)] ;;;
         process c (fsnotify.EventName event)
       else ret tt) ;;;
      eventLoop process c rest
  | FromErrors err :: rest =>
      log_Debug [Str "error:"; Err err] ;;;
      eventLoop process c rest
  end.

(** [watch]: the set-up, fatal when it fails, then the goroutine.  The
    outcome is that of the goroutine; the caller itself waits on [done]. *)
Definition watch_with (process : Context -> string -> M unit) (c : Context)
    (received : list Received) : M unit :=
  s <- get_sys ;;
  match NewWatcherErr os s with
  | Some err => log_Fatal [Err err]
  | None =>
      log_Debug [Str ("Watching " ++ String_ c "src")] ;;;
      s <- get_sys ;;
      match AddErr os (String_ c "src") s with
      | Some err => log_Fatal [Err err]
      | None => eventLoop process c received
      end
  end.

End Program.

(** The watch-mode revision of [main.go]. *)
Module Watch.

Definition process (os : OS) (c : Context) (videoFile : string) : M unit :=
  enter_pipeline videoFile ;;;
  convert os c videoFile.

Definition watch (os : OS) : Context -> list Received -> M unit :=
  watch_with os (process os).

End Watch.

(** The upload-only variant, with the two stores. *)
Module Upload.

Definition bucketFile (videoFile : string) (now : Z) : string :=
  let ext := filepath.Ext videoFile in
  let videoFileName := strings.TrimSuffix (filepath.Base videoFile) ext in
  videoFileName ++ "_" ++ fmt.d now ++ ext.

Definition process (os : OS) (c : Context) (videoFile : string) : M unit :=
  enter_pipeline videoFile ;;;
  (if String.eqb videoFile "" then log_Fatal [Str no_file_message]
   else ret tt) ;;;
  now <- time_Now_Unix ;;
  uploadGCP os (String_ c "gcp-bucket") videoFile (bucketFile videoFile now) ;;;
  uploadS3 os (String_ c "s3-bucket") videoFile (bucketFile videoFile now).

Definition watch (os : OS) : Context -> list Received -> M unit :=
  watch_with os (process os).

End Upload.


(** ** Reading outcomes *)

Definition result {A : Type} (o : Outcome A) : option A :=
  match o with
  | Returns a _ => Some a
  | Exits _ _ => None
  end.

(** The time the scan compares for an entry: that of a video-classified
    entry whose [os.Stat] succeeded. *)
Definition candidate (f : DirEntry) : option Z :=
  if IsVideo f then
    match Stat f with
    | inr t => Some t
    | inl _ => None
    end
  else None.

(** The loop of [findNewestFile] without its logging. *)
Fixpoint pick (files : list DirEntry) (newestFile : string) (newestTime : Z)
  : string * Z :=
  match files with
  | [] => (newestFile, newestTime)
  | f :: rest =>
      match candidate f with
      | Some currTime =>
          if currTime >? newestTime then pick rest (Name f) currTime
          else pick rest newestFile newestTime
      | None => pick rest newestFile newestTime
      end
  end.

(** [w'] is [w] with log records added, and nothing else changed. *)
Definition only_logged (w w' : World) : Prop :=
  sys w' = sys w /\ stdout w' = stdout w /\ commands w' = commands w /\
  pipeline w' = pipeline w /\ exists l, logs w' = (logs w ++ l)%list.


(** ** Specification vocabulary *)

(** The operation kind includes creation: bit 0 of the mask. *)
Definition includes_creation (op : fsnotify.Op) : bool := Z.testbit op 0.

(** The paths of the events received whose kind includes creation. *)
Fixpoint creations (received : list Received) : list string :=
  match received with
  | [] => []
  | FromEvents event :: rest =>
      if includes_creation (fsnotify.EventOp event)
      then fsnotify.EventName event :: creations rest
      else creations rest
  | FromErrors _ :: rest => creations rest
  end.

(** [m] leaves the record of pipeline entries as it is, however it ends. *)
Definition keeps_pipeline {A : Type} (m : M A) : Prop :=
  forall w, pipeline (world_of (m w)) = pipeline w.

(** The scratch directory [createTmpDir] makes for a random suffix. *)
Definition scratch (suffix : string) : string :=
  filepath.Join ["/tmp"; "pngs" ++ suffix].

(** The three external commands of the conversion. *)
Definition ffmpeg_argv (videoFile tmpDir : string) : list string :=
  ["ffmpeg"; "-i"; videoFile; filepath.Join [tmpDir; "frame%04d.png"]].

Definition gifski_argv (c : Context) (tmpDir : string) (newName : Z)
  : list string :=
  ["/bin/sh"; "-c"; cmdin c tmpDir (outfn c newName)].

Definition gsutil_argv (bucket file : string) : list string :=
  ["gsutil"; "cp"; file; "gs://" ++ bucket].

Definition aws_argv (bucket file key : string) : list string :=
  ["aws"; "s3"; "cp"; file; "s3://" ++ bucket ++ "/" ++ key;
   "--acl"; "public-read"].

(** ** The earlier revision of the scan, and the entry points *)

(** [findNewestFile] of the revision that reads its configuration itself:
    the same loop without the video test. *)
Module Legacy.

Fixpoint range_files (files : list DirEntry) (newestFile : string)
    (newestTime : Z) : M string :=
  match files with
  | [] => ret newestFile
  | f :: rest =>
      match Stat f with
      | inl err =>
          log_Error [Str err] ;;; range_files rest newestFile newestTime
      | inr currTime =>
          if currTime >? newestTime
          then range_files rest (Name f) currTime
          else range_files rest newestFile newestTime
      end
  end.

Definition findNewestFile (dir : string) : M string :=
  s <- get_sys ;;
  newestFile <- range_files (ReadDir s dir) "" 0 ;;
  ret (filepath.Join [dir; newestFile]).

End Legacy.

Section Entry.

(** [logging.LogLevel]: the level a name stands for, or its error. *)
Variable LogLevel : string -> error + Level.

Variable os : OS.

(** [logging.SetLevel] changes what the backend prints; the world keeps the
    calls on the logger, so the level leaves no trace in it. *)
Definition initLogging (c : Context) : M unit :=
  match LogLevel (String_ c "log") with
  | inl err => log_Fatal [Str err]
  | inr _ => ret tt
  end.

(** The [Action] of the first revision of [main.go]. *)
Definition Action (c : Context) : M unit :=
  initLogging c ;;;
  process os c.

(** The [Action] of the revisions with a watcher, over the [watch] and the
    [process] of the revision. *)
Definition Action_with (watch : Context -> list Received -> M unit)
    (process : Context -> string -> M unit) (c : Context)
    (received : list Received) : M unit :=
  initLogging c ;;;
  if Bool_ c "watch" then watch c received
  else
    videoFile <-
      (if (1 <=? List.length (Args c))%nat then ret (nth 0 (Args c) "")
       else findNewestFile (String_ c "src")) ;;
    process c videoFile.

Definition Action_watch : Context -> list Received -> M unit :=
  Action_with (Watch.watch os) (Watch.process os).

Definition Action_upload : Context -> list Received -> M unit :=
  Action_with (Upload.watch os) (Upload.process os).

End Entry.

(** ** Vocabulary for the further properties *)

Definition error_record (e : error) : LogRecord :=
  {| level := ERROR; operands := [Str e] |}.

Definition critical_record (op : LogArg) : LogRecord :=
  {| level := CRITICAL; operands := [op] |}.

(** What [runCmd] logs for a command, its combined output and its error. *)
Definition run_logs (argv : list string) (output : string)
    (err : option error) : list LogRecord :=
  ({| level := DEBUG; operands := [Strs argv] |} ::
   (if String.eqb output "" then []
    else [{| level := DEBUG; operands := [Str output] |}]) ++
   match err with
   | Some e => [error_record e]
   | None => []
   end)%list.

(** The errors of [os.Stat] on the video-classified entries, in order. *)
Fixpoint stat_errors (files : list DirEntry) : list error :=
  match files with
  | [] => []
  | f :: rest =>
      if IsVideo f then
        match Stat f with
        | inl err => err :: stat_errors rest
        | inr _ => stat_errors rest
        end
      else stat_errors rest
  end.

(** [p] is neither [dir] nor below it. *)
Definition outside (dir p : string) : bool :=
  negb (String.eqb p dir || has_prefix (dir ++ "/") p).

(** What the choice of the video file logs in [process] of the first
    revision: the records of the scan when no argument is given. *)
Definition scan_records (c : Context) (w : World) : list LogRecord :=
  match Args c with
  | [] => map error_record (stat_errors (ReadDir (sys w) (String_ c "src")))
  | _ :: _ => []
  end.

(** A configuration without argument, source folder or bucket. *)
Definition bare_config : Context :=
  {| Args := []; String_ := fun _ => ""; Int := fun _ => 1;
     Bool_ := fun _ => false |}.

(** The public URLs of the two stores. *)
Definition gcs_url (bucket key : string) : string :=
  "https://storage.googleapis.com/" ++ bucket ++ "/" ++ key.

Definition s3_url (bucket key : string) : string :=
  "https://" ++ bucket ++ ".s3.amazonaws.com/" ++ key.

(** An operating system whose commands succeed quietly and leave the
    machine alone, and one that cannot make a scratch directory. *)
Definition quiet_os : OS :=
  {| CombinedOutput := fun _ s => (s, ("", None));
     TempDirSuffix := fun _ _ _ => inr "7";
     NewWatcherErr := fun _ => None;
     AddErr := fun _ _ => None;
     ClipboardWriteErr := fun _ _ => None |}.

Definition full_disk_os : OS :=
  {| CombinedOutput := fun _ s => (s, ("", None));
     TempDirSuffix := fun _ _ _ => inl "no space left on device";
     NewWatcherErr := fun _ => None;
     AddErr := fun _ _ => None;
     ClipboardWriteErr := fun _ _ => None |}.

Definition unwatchable_os : OS :=
  {| CombinedOutput := fun _ s => (s, ("", None));
     TempDirSuffix := fun _ _ _ => inr "7";
     NewWatcherErr := fun _ => None;
     AddErr := fun _ _ => Some "no such file or directory";
     ClipboardWriteErr := fun _ _ => None |}.

(** A video-classified entry that cannot be stat'ed. *)
Definition vanished (name : string) : DirEntry :=
  {| Name := name; Stat := inl "no such file or directory"; IsVideo := true |}.

(** Both stores configured, a clip named on the command line. *)
Definition stores_config : Context :=
  {| Args := ["/v/clip.mov"];
     String_ := fun flag =>
       if String.eqb flag "src" then "/v"
       else if String.eqb flag "gcp-bucket" then "gifs"
       else if String.eqb flag "s3-bucket" then "clips"
       else if String.eqb flag "log" then "ERROR"
       else "";
     Int := fun _ => 0;
     Bool_ := fun _ => false |}.

(** A machine without a clipboard utility: commands succeed quietly, the
    clipboard write fails. *)
Definition no_clipboard_os : OS :=
  {| CombinedOutput := fun _ s => (s, ("", None));
     TempDirSuffix := fun _ _ _ => inr "7";
     NewWatcherErr := fun _ => None;
     AddErr := fun _ _ => None;
     ClipboardWriteErr := fun _ _ =>
       Some "No clipboard utilities available. Please install xsel, xclip, wl-clipboard or Termux:API add-on for termux-clipboard-get/set." |}.

(** ** Sample directories, machines and configurations *)

Definition movie (name : string) (mtime : Z) : DirEntry :=
  {| Name := name; Stat := inr mtime; IsVideo := true |}.

Definition document (name : string) (mtime : Z) : DirEntry :=
  {| Name := name; Stat := inr mtime; IsVideo := false |}.

Definition machine (files : list DirEntry) : Sys :=
  {| ReadDir := fun _ => files; paths := []; clipboard := "copied earlier";
     Now := 1700000000 |}.

Definition start (files : list DirEntry) : World :=
  {| sys := machine files; stdout := []; logs := []; commands := [];
     pipeline := [] |}.

(** An operating system on which every command fails. *)
Definition failing_os : OS :=
  {| CombinedOutput := fun _ s => (s, ("", Some "exit status 1"));
     TempDirSuffix := fun _ _ _ => inr "042";
     NewWatcherErr := fun _ => None;
     AddErr := fun _ _ => None;
     ClipboardWriteErr := fun _ _ => None |}.

(** No positional argument, the movies folder as [src], the rest unset. *)
Definition movies_config : Context :=
  {| Args := [];
     String_ := fun flag =>
       if String.eqb flag "src" then "/home/u/Movies" else "";
     Int := fun _ => 100;
     Bool_ := fun _ => false |}.

(** A clip named on the command line, a destination folder and a bucket. *)
Definition clip_config : Context :=
  {| Args := ["/v/clip.mov"];
     String_ := fun flag =>
       if String.eqb flag "src" then "/v"
       else if String.eqb flag "dist" then "/gifs"
       else if String.eqb flag "bucket" then "gifs"
       else "";
     Int := fun flag =>
       if String.eqb flag "width" then 960
       else if String.eqb flag "frames" then 20
       else 100;
     Bool_ := fun _ => false |}.

Definition created (name : string) : Received :=
  FromEvents {| fsnotify.EventName := name; fsnotify.EventOp := fsnotify.Create |}.

Definition written (name : string) : Received :=
  FromEvents {| fsnotify.EventName := name; fsnotify.EventOp := fsnotify.Write |}.

Definition removed (name : string) : Received :=
  FromEvents {| fsnotify.EventName := name; fsnotify.EventOp := fsnotify.Remove |}.

Example Clean_doc_1 : filepath.Clean "abc//def//ghi" = "abc/def/ghi".
Proof. reflexivity. Qed.
Example Clean_doc_2 : filepath.Clean "abc/def/../ghi/../jkl" = "abc/jkl".
Proof. reflexivity. Qed.
Example Clean_doc_3 : filepath.Clean "/../abc/./def/" = "/abc/def".
Proof. reflexivity. Qed.
Example Clean_doc_4 : filepath.Clean "abc/../../././../def" = "../../def".
Proof. reflexivity. Qed.
Example Clean_doc_5 : filepath.Clean "abc/def/../../.." = "..".
Proof. reflexivity. Qed.
Example Clean_doc_6 : filepath.Clean "//" = "/" /\ filepath.Clean "./" = ".".
Proof. split; reflexivity. Qed.
Example Join_doc_1 : filepath.Join ["a"; "b"; "c"] = "a/b/c".
Proof. reflexivity. Qed.
Example Join_doc_2 : filepath.Join ["a"; ""] = "a" /\ filepath.Join [""; ""] = "".
Proof. split; reflexivity. Qed.
Example Join_doc_3 : filepath.Join ["a/b"; "../../../xyz"] = "../xyz".
Proof. reflexivity. Qed.
Example Dir_doc :
  filepath.Dir "/foo/bar/baz.js" = "/foo/bar" /\
  filepath.Dir "/foo/bar/baz/" = "/foo/bar/baz" /\
  filepath.Dir "dev.txt" = "." /\ filepath.Dir "../todo.txt" = ".." /\
  filepath.Dir ".." = "." /\ filepath.Dir "/" = "/" /\ filepath.Dir "" = ".".
Proof. repeat split; reflexivity. Qed.
Example Base_doc :
  filepath.Base "/foo/bar/baz.js" = "baz.js" /\
  filepath.Base "/foo/bar/baz/" = "baz" /\
  filepath.Base "../todo.txt" = "todo.txt" /\ filepath.Base ".." = ".." /\
  filepath.Base "/" = "/" /\ filepath.Base "" = ".".
Proof. repeat split; reflexivity. Qed.
Example Ext_doc :
  filepath.Ext "index" = "" /\ filepath.Ext "index.js" = ".js" /\
  filepath.Ext "main.test.js" = ".js" /\ filepath.Ext "/a.b/c" = "".
Proof. repeat split; reflexivity. Qed.
Example TrimSuffix_doc :
  strings.TrimSuffix "clip.mov" ".mov" = "clip" /\
  strings.TrimSuffix "clip" "" = "clip" /\
  Upload.bucketFile "/v/clip.mov" 1700000000 = "clip_1700000000.mov".
Proof. repeat split; reflexivity. Qed.
Example LogLevel_doc :
  logging.LogLevel "DEBUG" = inr DEBUG /\ logging.LogLevel "debug" = inr DEBUG /\
  logging.LogLevel "Error" = inr ERROR /\
  logging.LogLevel "verbose" = inl "logger: invalid log level" /\
  logging.LogLevel "" = inl "logger: invalid log level".
Proof. repeat split; reflexivity. Qed.
Example fmt_d_doc : fmt.d 1700000000 = "1700000000" /\ fmt.d 0 = "0" /\ fmt.d (-5) = "-5".
Proof. repeat split; reflexivity. Qed.

(** ** The scan for the newest video *)

Lemma only_logged_refl (w : World) : only_logged w w.
Proof.
  repeat split; try reflexivity. exists []. now rewrite app_nil_r.
Qed.

Lemma only_logged_trans (w1 w2 w3 : World) :
  only_logged w1 w2 -> only_logged w2 w3 -> only_logged w1 w3.
Proof.
  intros (Hs & Ho & Hc & Hp & l & Hl) (Hs' & Ho' & Hc' & Hp' & l' & Hl').
  repeat split; try congruence.
  exists (l ++ l')%list. rewrite Hl', Hl. now rewrite app_assoc.
Qed.

Lemma log_call_only_logged (lv : Level) (ops : list LogArg) (w : World) :
  exists w', log_call lv ops w = Returns tt w' /\ only_logged w w'.
Proof.
  eexists; split; [reflexivity|].
  repeat split; try reflexivity. now eexists.
Qed.

(** The loop returns what [pick] computes and only adds log records. *)
Lemma range_files_pick (files : list DirEntry) :
  forall (nf : string) (nt : Z) (w : World),
  exists w',
    range_files files nf nt w = Returns (fst (pick files nf nt)) w' /\
    only_logged w w'.
Proof.
  induction files as [|f rest IH]; intros nf nt w; simpl.
  - exists w. split; [reflexivity | apply only_logged_refl].
  - unfold candidate. destruct (IsVideo f); simpl; [|apply IH].
    destruct (Stat f) as [err|currTime].
    + unfold bind.
      destruct (log_call_only_logged ERROR [Str err] w) as (w1 & E1 & L1).
      unfold log_Error. rewrite E1.
      destruct (IH nf nt w1) as (w2 & E2 & L2).
      exists w2. split; [exact E2 | eapply only_logged_trans; eauto].
    + destruct (currTime >? nt); apply IH.
Qed.

Lemma findNewestFile_pick (dir : string) (w : World) :
  exists w',
    findNewestFile dir w =
      Returns (filepath.Join [dir; fst (pick (ReadDir (sys w) dir) "" 0)]) w' /\
    only_logged w w'.
Proof.
  unfold findNewestFile, bind, get_sys.
  destruct (range_files_pick (ReadDir (sys w) dir) "" 0 w) as (w' & E & L).
  rewrite E. exists w'. split; [reflexivity | exact L].
Qed.

Lemma findNewestFile_result (dir : string) (w : World) :
  result (findNewestFile dir w) =
    Some (filepath.Join [dir; fst (pick (ReadDir (sys w) dir) "" 0)]).
Proof.
  destruct (findNewestFile_pick dir w) as (w' & E & _). now rewrite E.
Qed.

(** Entries no later than the running maximum leave it as it is. *)
Lemma pick_stable (files : list DirEntry) :
  forall (nf : string) (nt : Z),
  (forall f t, In f files -> candidate f = Some t -> t <= nt) ->
  pick files nf nt = (nf, nt).
Proof.
  induction files as [|f rest IH]; intros nf nt H; simpl; [reflexivity|].
  destruct (candidate f) as [t|] eqn:C.
  - assert (t <= nt) by (apply (H f); simpl; auto).
    destruct (Z.gtb_spec t nt); [lia|].
    apply IH. intros g u Hg. apply H. now right.
  - apply IH. intros g u Hg. apply H. now right.
Qed.

(** Entries earlier than [t] keep the running maximum below [t]. *)
Lemma pick_below (files : list DirEntry) (t : Z) :
  forall (nf : string) (nt : Z),
  nt < t ->
  (forall f u, In f files -> candidate f = Some u -> u < t) ->
  snd (pick files nf nt) < t.
Proof.
  induction files as [|f rest IH]; intros nf nt Hnt H; simpl; [exact Hnt|].
  assert (Hrest : forall g u, In g rest -> candidate g = Some u -> u < t)
    by (intros g u Hg; apply H; now right).
  destruct (candidate f) as [u|] eqn:C; [|now apply IH].
  assert (u < t) by (apply (H f); simpl; auto).
  destruct (u >? nt); now apply IH.
Qed.

(** The first entry that carries the greatest time is the one kept. *)
Lemma pick_first_max (l1 l2 : list DirEntry) (e : DirEntry) (t : Z) :
  forall (nf : string) (nt : Z),
  nt < t ->
  candidate e = Some t ->
  (forall f u, In f l1 -> candidate f = Some u -> u < t) ->
  (forall f u, In f l2 -> candidate f = Some u -> u <= t) ->
  pick (l1 ++ e :: l2) nf nt = (Name e, t).
Proof.
  induction l1 as [|f l1 IH]; intros nf nt Hnt He H1 H2; simpl.
  - rewrite He. destruct (Z.gtb_spec t nt); [|lia].
    now apply pick_stable.
  - assert (Hrest : forall g u, In g l1 -> candidate g = Some u -> u < t)
      by (intros g u Hg; apply H1; now right).
    destruct (candidate f) as [u|] eqn:C; [|now apply IH].
    assert (u < t) by (apply (H1 f); simpl; auto).
    destruct (u >? nt); now apply IH.
Qed.

(** Either nothing beat the starting maximum, or the entry kept is a
    candidate later than it and no candidate is later than the entry. *)
Lemma pick_cases (files : list DirEntry) :
  forall (nf : string) (nt : Z),
  (pick files nf nt = (nf, nt) /\
   forall f u, In f files -> candidate f = Some u -> u <= nt)
  \/
  (exists e t,
     In e files /\ candidate e = Some t /\ nt < t /\
     pick files nf nt = (Name e, t) /\
     forall f u, In f files -> candidate f = Some u -> u <= t).
Proof.
  induction files as [|f rest IH]; intros nf nt; simpl.
  - left. split; [reflexivity | intros ? ? []].
  - destruct (candidate f) as [u|] eqn:C.
    + destruct (Z.gtb_spec u nt) as [Hgt|Hle].
      * right.
        destruct (IH (Name f) u) as [[E H]|(e & t & Hin & Hc & Hlt & E & H)].
        -- exists f, u. repeat split; auto; try lia.
           intros g v [<-|Hg] Hv; [rewrite C in Hv; injection Hv; lia|].
           now apply (H g).
        -- exists e, t. repeat split; auto; try lia.
           intros g v [<-|Hg] Hv; [rewrite C in Hv; injection Hv; lia|].
           now apply (H g).
      * destruct (IH nf nt) as [[E H]|(e & t & Hin & Hc & Hlt & E & H)].
        -- left. split; [exact E|].
           intros g v [<-|Hg] Hv; [rewrite C in Hv; injection Hv; lia|].
           now apply (H g).
        -- right. exists e, t. repeat split; auto.
           intros g v [<-|Hg] Hv; [rewrite C in Hv; injection Hv; lia|].
           now apply (H g).
    + destruct (IH nf nt) as [[E H]|(e & t & Hin & Hc & Hlt & E & H)].
      * left. split; [exact E|].
        intros g v [<-|Hg] Hv; [congruence|]. now apply (H g).
      * right. exists e, t. repeat split; auto.
        intros g v [<-|Hg] Hv; [congruence|]. now apply (H g).
Qed.

Lemma candidate_video (f : DirEntry) (t : Z) :
  candidate f = Some t <-> IsVideo f = true /\ Stat f = inr t.
Proof.
  unfold candidate. destruct (IsVideo f), (Stat f); split;
    try intros [? ?]; try intros ?; try split; congruence.
Qed.

(** C1, at a directory without entries: [findNewestFile] gives back the
    directory itself, not the empty string, so the guard in [process] that
    looks for the empty string does not fire and the frame extraction is run
    on the directory. *)
Theorem findNewestFile_empty_listing_returns_dir :
  result (findNewestFile "/home/u/Movies" (start [])) = Some "/home/u/Movies" /\
  returned (process failing_os movies_config (start [])) = true /\
  hd_error (commands (world_of (process failing_os movies_config (start []))))
    = Some ["ffmpeg"; "-i"; "/home/u/Movies"; "/tmp/pngs042/frame%04d.png"].
Proof. repeat split; reflexivity. Qed.

(** C2 as stated does not hold: a directory whose only video-classified
    entry was modified at the epoch. *)
Lemma findNewestFile_epoch_video_not_returned :
  ~ (forall (dir : string) (w : World),
       (exists f, In f (ReadDir (sys w) dir) /\ IsVideo f = true) ->
       exists e t,
         In e (ReadDir (sys w) dir) /\ IsVideo e = true /\ Stat e = inr t /\
         result (findNewestFile dir w) =
           Some (filepath.Join [dir; Name e]) /\
         forall f u, In f (ReadDir (sys w) dir) ->
                     IsVideo f = true -> Stat f = inr u -> u <= t).
Proof.
  intros H.
  destruct (H "/v" (start [movie "a.mp4" 0])) as (e & t & Hin & _ & _ & R & _).
  - exists (movie "a.mp4" 0). split; [now left | reflexivity].
  - destruct Hin as [<-|[]]. discriminate R.
Qed.

(** C2, amended: modification times are compared as whole-second unix
    timestamps, [ModTime().Unix()].  When some video-classified entry can be
    stat'ed and has a timestamp greater than zero, [findNewestFile] returns
    the path under [dir] of a video-classified entry whose whole-second
    timestamp is the greatest among the video-classified entries that can be
    stat'ed; the entry returned is never a non-video one. *)
Theorem findNewestFile_returns_newest_video (dir : string) (w : World) :
  (exists f t, In f (ReadDir (sys w) dir) /\
               IsVideo f = true /\ Stat f = inr t /\ 0 < t) ->
  exists e t,
    In e (ReadDir (sys w) dir) /\ IsVideo e = true /\ Stat e = inr t /\
    result (findNewestFile dir w) = Some (filepath.Join [dir; Name e]) /\
    forall f u, In f (ReadDir (sys w) dir) ->
                IsVideo f = true -> Stat f = inr u -> u <= t.
Proof.
  intros (f & tf & Hf & Vf & Sf & Hpos).
  rewrite findNewestFile_result.
  destruct (pick_cases (ReadDir (sys w) dir) "" 0)
    as [[_ H]|(e & t & Hin & Hc & Hlt & E & H)].
  - assert (tf <= 0) by (apply (H f); [exact Hf | now apply candidate_video]).
    lia.
  - apply candidate_video in Hc as [Ve Se].
    exists e, t. rewrite E. repeat split; auto.
    intros g u Hg Vg Sg. apply (H g); [exact Hg | now apply candidate_video].
Qed.

Lemma findNewestFile_returns_newest_video_witness :
  exists e t,
    In e [document "notes.mp4" 900; movie "a.mov" 100; movie "b.mov" 300] /\
    IsVideo e = true /\ Stat e = inr t /\
    result (findNewestFile "/v"
              (start [document "notes.mp4" 900; movie "a.mov" 100;
                      movie "b.mov" 300]))
      = Some (filepath.Join ["/v"; Name e]) /\
    forall f u,
      In f [document "notes.mp4" 900; movie "a.mov" 100; movie "b.mov" 300] ->
      IsVideo f = true -> Stat f = inr u -> u <= t.
Proof.
  apply (findNewestFile_returns_newest_video "/v"
           (start [document "notes.mp4" 900; movie "a.mov" 100;
                   movie "b.mov" 300])).
  exists (movie "a.mov" 100), 100. simpl. repeat split; auto; lia.
Defined.

(** C3 as stated does not hold: of two video-classified entries with the
    same greatest time the scan keeps the first, not the last. *)
Lemma findNewestFile_tie_not_last :
  ~ (forall (dir : string) (w : World) (l1 l2 : list DirEntry)
            (e : DirEntry) (t : Z),
       ReadDir (sys w) dir = (l1 ++ e :: l2)%list ->
       candidate e = Some t ->
       (exists f, In f l1 /\ candidate f = Some t) ->
       (forall f u, In f l1 -> candidate f = Some u -> u <= t) ->
       (forall f u, In f l2 -> candidate f = Some u -> u < t) ->
       result (findNewestFile dir w) = Some (filepath.Join [dir; Name e])).
Proof.
  intros H.
  specialize (H "/v" (start [movie "a.mp4" 100; movie "b.mp4" 100])
                [movie "a.mp4" 100] [] (movie "b.mp4" 100) 100).
  assert (R : result (findNewestFile "/v"
                        (start [movie "a.mp4" 100; movie "b.mp4" 100]))
              = Some (filepath.Join ["/v"; Name (movie "b.mp4" 100)])).
  { apply H.
    - reflexivity.
    - reflexivity.
    - exists (movie "a.mp4" 100). split; [now left | reflexivity].
    - intros f u [<-|[]] C; injection C; lia.
    - intros f u []. }
  discriminate R.
Qed.

(** C3, amended: when the greatest modification time, as a whole-second
    unix timestamp, among the video-classified entries that can be stat'ed
    is after the epoch, the entry returned is the first in listing order
    that carries it; later entries with the same timestamp do not replace
    it. *)
Theorem findNewestFile_tie_first_wins (dir : string) (w : World)
    (l1 l2 : list DirEntry) (e : DirEntry) (t : Z) :
  ReadDir (sys w) dir = (l1 ++ e :: l2)%list ->
  candidate e = Some t ->
  0 < t ->
  (forall f u, In f l1 -> candidate f = Some u -> u < t) ->
  (forall f u, In f l2 -> candidate f = Some u -> u <= t) ->
  result (findNewestFile dir w) = Some (filepath.Join [dir; Name e]).
Proof.
  intros Hfiles He Hpos H1 H2.
  rewrite findNewestFile_result, Hfiles.
  now rewrite (pick_first_max l1 l2 e t "" 0 Hpos He H1 H2).
Qed.

Lemma findNewestFile_tie_first_wins_witness :
  result (findNewestFile "/v"
            (start [movie "old.mov" 50; movie "a.mp4" 100; movie "b.mp4" 100]))
    = Some "/v/a.mp4".
Proof.
  apply (findNewestFile_tie_first_wins "/v"
           (start [movie "old.mov" 50; movie "a.mp4" 100; movie "b.mp4" 100])
           [movie "old.mov" 50] [movie "b.mp4" 100] (movie "a.mp4" 100) 100).
  - reflexivity.
  - reflexivity.
  - lia.
  - intros f u [<-|[]] C; injection C; lia.
  - intros f u [<-|[]] C; injection C; lia.
Defined.

(** C10: the entry [findNewestFile] keeps, if any, was modified after the
    epoch; and a directory whose video-classified entries were all modified
    at or before the epoch gives the result of a directory without
    video-classified entries. *)
Theorem findNewestFile_skips_epoch_or_earlier (dir : string) (w : World) :
  (exists nf,
     result (findNewestFile dir w) = Some (filepath.Join [dir; nf]) /\
     (nf = "" \/
      exists e t, In e (ReadDir (sys w) dir) /\ IsVideo e = true /\
                  Stat e = inr t /\ 0 < t /\ nf = Name e)) /\
  ((forall f t, In f (ReadDir (sys w) dir) ->
                IsVideo f = true -> Stat f = inr t -> t <= 0) ->
   forall w0 : World,
     (forall f, In f (ReadDir (sys w0) dir) -> IsVideo f = false) ->
     result (findNewestFile dir w) = result (findNewestFile dir w0)).
Proof.
  split.
  - rewrite findNewestFile_result.
    destruct (pick_cases (ReadDir (sys w) dir) "" 0)
      as [[E _]|(e & t & Hin & Hc & Hlt & E & _)]; rewrite E; simpl.
    + exists "". split; [reflexivity | now left].
    + apply candidate_video in Hc as [Ve Se].
      exists (Name e). split; [reflexivity|].
      right. exists e, t. repeat split; auto.
  - intros Hold w0 Hnone.
    rewrite !findNewestFile_result.
    rewrite (pick_stable (ReadDir (sys w) dir) "" 0).
    + rewrite (pick_stable (ReadDir (sys w0) dir) "" 0); [reflexivity|].
      intros f u Hf Hc. apply candidate_video in Hc as [Vf _].
      rewrite (Hnone f Hf) in Vf. discriminate.
    + intros f u Hf Hc. apply candidate_video in Hc as [Vf Sf].
      now apply (Hold f).
Qed.

Lemma findNewestFile_skips_epoch_or_earlier_witness :
  result (findNewestFile "/v" (start [movie "a.mp4" 0; movie "b.mp4" (-86400)]))
    = result (findNewestFile "/v" (start [document "notes.txt" 500])).
Proof.
  apply (findNewestFile_skips_epoch_or_earlier "/v"
           (start [movie "a.mp4" 0; movie "b.mp4" (-86400)])).
  - intros f t [<-|[<-|[]]] _ S; injection S; lia.
  - intros f [<-|[]]; reflexivity.
Defined.

(** ** Paths: elements, the buffer of [Clean], and [Join] of a file name *)

Section PathFacts.

Import filepath.

Lemma append_nil_r (s : string) : s ++ "" = s.
Proof. induction s as [|c s IH]; simpl; [reflexivity | now rewrite IH]. Qed.

Lemma append_assoc (a b c : string) : (a ++ b) ++ c = a ++ (b ++ c).
Proof. induction a as [|x a IH]; simpl; [reflexivity | now rewrite IH]. Qed.

Lemma elements_not_nil (p : string) : elements p <> [].
Proof.
  destruct p as [|c p]; simpl; [discriminate|].
  destruct (IsPathSeparator c); [discriminate|].
  destruct (elements p); discriminate.
Qed.

Lemma elements_app_sep (a b : string) :
  elements (a ++ String Separator b) = (elements a ++ elements b)%list.
Proof.
  induction a as [|c a IH]; simpl; [reflexivity|].
  destruct (IsPathSeparator c); rewrite IH; [reflexivity|].
  destruct (elements a) eqn:E; [|reflexivity].
  now destruct (elements_not_nil a).
Qed.

Lemma elements_no_sep (f : string) : no_sep f = true -> elements f = [f].
Proof.
  induction f as [|c f IH]; simpl; [reflexivity|].
  intros H. apply andb_prop in H as [Hc Hf].
  apply negb_true_iff in Hc. rewrite Hc, (IH Hf). reflexivity.
Qed.

Lemma elements_all_no_sep (p : string) :
  Forall (fun e => no_sep e = true) (elements p).
Proof.
  induction p as [|c p IH]; simpl; [repeat constructor|].
  destruct (IsPathSeparator c) eqn:Hc; [now constructor|].
  destruct (elements p) as [|e es]; inversion IH; subst;
    constructor; simpl; auto; now rewrite Hc.
Qed.

Lemma concat_elements (l : list string) :
  l <> [] ->
  Forall (fun e => no_sep e = true) l ->
  elements (String.concat "/" l) = l.
Proof.
  induction l as [|x l IH]; [congruence|].
  intros _ H. inversion H as [|? ? Hx Hl]; subst.
  destruct l as [|y l]; [now apply elements_no_sep|].
  change (String.concat "/" (x :: y :: l))
    with (x ++ String Separator (String.concat "/" (y :: l))).
  rewrite elements_app_sep, (elements_no_sep x Hx), IH; auto.
  discriminate.
Qed.

Lemma real_spec (e : string) :
  real e = true ->
  String.eqb e "" = false /\ String.eqb e "." = false /\
  String.eqb e ".." = false /\ no_sep e = true.
Proof.
  unfold real. intros H.
  repeat (apply andb_prop in H as [H ?]).
  repeat split; auto; now apply negb_true_iff.
Qed.

Lemma clean_step_real (r : bool) (out : list string) (e : string) :
  real e = true -> clean_step r out e = e :: out.
Proof.
  intros H. apply real_spec in H as (H1 & H2 & H3 & _).
  unfold clean_step. now rewrite H1, H2, H3.
Qed.

Lemma normal_all_no_sep (r : bool) (out : list string) :
  normal r out = true -> Forall (fun e => no_sep e = true) out.
Proof.
  induction out as [|a below IH]; simpl; [constructor|].
  intros H. apply andb_prop in H as [Hb Ha].
  constructor; [|now apply IH].
  apply orb_prop in Ha as [Ha|Ha].
  - now apply real_spec in Ha.
  - repeat (apply andb_prop in Ha as [Ha ?]).
    apply String.eqb_eq in Ha. now subst.
Qed.

Lemma normal_nonempty (r : bool) (out : list string) :
  normal r out = true -> Forall (fun e => String.eqb e "" = false) out.
Proof.
  induction out as [|a below IH]; simpl; [constructor|].
  intros H. apply andb_prop in H as [Hb Ha].
  constructor; [|now apply IH].
  apply orb_prop in Ha as [Ha|Ha].
  - now apply real_spec in Ha.
  - repeat (apply andb_prop in Ha as [Ha ?]).
    apply String.eqb_eq in Ha. now subst.
Qed.

Lemma clean_step_normal (r : bool) (out : list string) (e : string) :
  no_sep e = true -> normal r out = true -> normal r (clean_step r out e) = true.
Proof.
  intros He Hout. unfold clean_step.
  destruct (String.eqb e "") eqn:E1; [exact Hout|].
  destruct (String.eqb e ".") eqn:E2; [exact Hout|].
  destruct (String.eqb e "..") eqn:E3.
  - destruct out as [|top below].
    + now destruct r.
    + destruct (String.eqb top "..") eqn:T.
      * change (normal r (".." :: top :: below))
          with (normal r (top :: below) &&
                (real ".." ||
                 (String.eqb ".." ".." && negb r && String.eqb top ".."))).
        rewrite Hout, T.
        simpl in Hout. apply andb_prop in Hout as [_ Ht].
        apply orb_prop in Ht as [Ht|Ht].
        -- apply real_spec in Ht as (_ & _ & Ht & _). congruence.
        -- apply andb_prop in Ht as [Ht _].
           apply andb_prop in Ht as [_ Hr]. now rewrite Hr.
      * simpl in Hout. now apply andb_prop in Hout as [Hb _].
  - simpl. rewrite Hout. unfold real. now rewrite E1, E2, E3, He.
Qed.

Lemma fold_clean_step_normal (r : bool) (es : list string) :
  forall out : list string,
  Forall (fun e => no_sep e = true) es ->
  normal r out = true ->
  normal r (fold_left (clean_step r) es out) = true.
Proof.
  induction es as [|e es IH]; intros out Hes Hout; simpl; [exact Hout|].
  inversion Hes; subst. apply IH; [assumption|].
  now apply clean_step_normal.
Qed.

(** Cleaning the elements of a buffer gives the buffer back. *)
Lemma fold_clean_step_rev (r : bool) (out : list string) :
  normal r out = true -> fold_left (clean_step r) (rev out) [] = out.
Proof.
  induction out as [|a below IH]; simpl; [reflexivity|].
  intros H. apply andb_prop in H as [Hb Ha].
  rewrite fold_left_app, (IH Hb). simpl.
  apply orb_prop in Ha as [Ha|Ha]; [now apply clean_step_real|].
  apply andb_prop in Ha as [Ha Hbelow]. apply andb_prop in Ha as [Ha Hr].
  apply String.eqb_eq in Ha. subst a. apply negb_true_iff in Hr. subst r.
  destruct below as [|b below]; [reflexivity|].
  unfold clean_step. simpl. now rewrite Hbelow.
Qed.

Lemma normal_of_elements (p : string) :
  normal (rooted p) (fold_left (clean_step (rooted p)) (elements p) []) = true.
Proof.
  apply fold_clean_step_normal; [apply elements_all_no_sep | reflexivity].
Qed.

Lemma append_sep_not_empty (a b : string) (c : ascii) :
  String.eqb (a ++ String c b) "" = false.
Proof. now destruct a. Qed.

Lemma rooted_append (p q : string) :
  String.eqb p "" = false -> rooted (p ++ q) = rooted p.
Proof. destruct p; [discriminate | reflexivity]. Qed.

Lemma rooted_no_sep (x q : string) :
  no_sep x = true -> String.eqb x "" = false -> rooted (x ++ q) = false.
Proof.
  destruct x as [|c x]; [discriminate|]. simpl.
  intros H _. apply andb_prop in H as [H _]. now apply negb_true_iff.
Qed.

Lemma rev_not_nil {A : Type} (l : list A) :
  l <> [] -> exists x l', rev l = x :: l'.
Proof.
  intros H. destruct (rev l) as [|x l'] eqn:E; [|eauto].
  apply (f_equal (@rev A)) in E. rewrite rev_involutive in E. now subst.
Qed.

Lemma concat_head (x : string) (l : list string) :
  exists q, String.concat "/" (x :: l) = x ++ q.
Proof.
  destruct l as [|y l]; simpl; [exists ""; now rewrite append_nil_r|].
  eexists; reflexivity.
Qed.

Lemma buffer_rooted (r : bool) (out : list string) (q : string) :
  normal r out = true -> (r = true \/ out <> []) ->
  rooted (buffer r out ++ q) = r.
Proof.
  intros Hn H. unfold buffer. destruct r; [reflexivity|].
  destruct H as [H|H]; [discriminate|].
  destruct (rev_not_nil out H) as (x & l' & E). rewrite E.
  destruct (concat_head x l') as (q' & ->). simpl.
  assert (Hx : In x out) by (apply in_rev; rewrite E; now left).
  pose proof (normal_all_no_sep _ _ Hn) as Hs.
  pose proof (normal_nonempty _ _ Hn) as Hne.
  rewrite Forall_forall in Hs, Hne.
  rewrite append_assoc.
  apply rooted_no_sep; auto.
Qed.

Lemma elements_buffer (r : bool) (out : list string) :
  normal r out = true -> out <> [] ->
  elements (buffer r out) = ((if r then [""] else []) ++ rev out)%list.
Proof.
  intros Hn H. unfold buffer.
  assert (E : elements (String.concat "/" (rev out)) = rev out).
  { apply concat_elements.
    - destruct (rev_not_nil out H) as (x & l' & ->). discriminate.
    - apply Forall_rev. now apply normal_all_no_sep with r. }
  destruct r; simpl; now rewrite E.
Qed.

Lemma fold_elements_buffer_sep (r : bool) (out : list string) :
  normal r out = true -> (r = true \/ out <> []) ->
  fold_left (clean_step r) (elements (buffer r out ++ "/")) [] = out.
Proof.
  intros Hn H.
  change (buffer r out ++ "/") with (buffer r out ++ String Separator "").
  rewrite elements_app_sep, fold_left_app. simpl.
  change (clean_step r ?o "") with o.
  destruct out as [|a below].
  - destruct H as [->|H]; [reflexivity | congruence].
  - rewrite elements_buffer by (auto; discriminate).
    rewrite fold_left_app.
    replace (fold_left (clean_step r) (if r then [""] else []) [])
      with (@nil string) by now destruct r.
    now apply fold_clean_step_rev.
Qed.

(** A buffer of [Clean], followed by a separator, cleans to itself. *)
Lemma Clean_buffer_sep (r : bool) (out : list string) :
  normal r out = true -> (r = true \/ out <> []) ->
  Clean (buffer r out ++ "/") = buffer r out.
Proof.
  intros Hn H. unfold Clean.
  rewrite append_sep_not_empty, buffer_rooted, fold_elements_buffer_sep by auto.
  destruct r; [reflexivity|].
  destruct H as [H|H]; [discriminate|]. now destruct out.
Qed.

Lemma Clean_trailing_sep (d : string) :
  String.eqb d "" = false -> Clean (d ++ "/") = Clean d.
Proof.
  intros Hd. unfold Clean.
  rewrite append_sep_not_empty, Hd, rooted_append by exact Hd.
  change (d ++ "/") with (d ++ String Separator "").
  now rewrite elements_app_sep, fold_left_app.
Qed.

Lemma buffer_not_empty (r : bool) (out : list string) :
  normal r out = true -> (r = true \/ out <> []) ->
  String.eqb (buffer r out) "" = false.
Proof.
  intros Hn H.
  pose proof (buffer_rooted r out "" Hn H) as R.
  rewrite append_nil_r in R.
  destruct (buffer r out) as [|c b] eqn:E; [|reflexivity].
  destruct r; [discriminate R|].
  destruct H as [H|H]; [discriminate|].
  unfold buffer in E. simpl in E.
  destruct (rev_not_nil out H) as (x & l' & Ex). rewrite Ex in E.
  destruct (concat_head x l') as (q & Eq). rewrite Eq in E.
  assert (Hx : In x out) by (apply in_rev; rewrite Ex; now left).
  pose proof (normal_nonempty _ _ Hn) as Hne. rewrite Forall_forall in Hne.
  specialize (Hne x Hx). destruct x; discriminate.
Qed.

(** [Clean] never returns the empty string. *)
Lemma Clean_not_empty (p : string) : String.eqb (Clean p) "" = false.
Proof.
  unfold Clean. destruct (String.eqb p ""); [reflexivity|].
  pose proof (normal_of_elements p) as Hn.
  destruct (rooted p) eqn:R; cbv [negb andb].
  - apply buffer_not_empty; auto.
  - destruct (fold_left (clean_step false) (elements p) []) as [|a below] eqn:E;
      [reflexivity|].
    simpl List.length. cbv iota beta. simpl Nat.eqb. cbv iota.
    apply buffer_not_empty; [exact Hn | right; discriminate].
Qed.

Lemma Clean_real (f : string) : real f = true -> Clean f = f.
Proof.
  intros Hf. pose proof (real_spec f Hf) as (H1 & _ & _ & H4).
  unfold Clean. rewrite H1.
  assert (R : rooted f = false).
  { rewrite <- (append_nil_r f). now apply rooted_no_sep. }
  rewrite R, (elements_no_sep f H4). simpl.
  rewrite (clean_step_real false [] f Hf). simpl. reflexivity.
Qed.

Lemma Clean_append_real (d f : string) :
  String.eqb d "" = false -> real f = true ->
  Clean (d ++ "/" ++ f) =
    buffer (rooted d) (f :: fold_left (clean_step (rooted d)) (elements d) []).
Proof.
  intros Hd Hf. pose proof (real_spec f Hf) as (_ & _ & _ & H4).
  unfold Clean.
  change (d ++ "/" ++ f) with (d ++ String Separator f).
  rewrite append_sep_not_empty, rooted_append by exact Hd.
  rewrite elements_app_sep, fold_left_app, (elements_no_sep f H4). simpl.
  rewrite clean_step_real by exact Hf. simpl.
  now rewrite andb_false_r.
Qed.

Lemma normal_push (r : bool) (out : list string) (f : string) :
  normal r out = true -> real f = true -> normal r (f :: out) = true.
Proof. intros Hn Hf. simpl. now rewrite Hn, Hf. Qed.

Lemma match_last (l : list string) (f x : string) :
  match (l ++ [f])%list with
  | [] => x
  | e :: es => last es e
  end = f.
Proof.
  destruct l as [|a l]; [reflexivity|]. simpl app. cbv iota.
  apply last_last.
Qed.

Lemma Dir_buffer_file (r : bool) (out : list string) (f : string) :
  normal r out = true -> real f = true ->
  Dir (buffer r (f :: out)) =
    if negb r && (List.length out =? 0)%nat then "." else buffer r out.
Proof.
  intros Hn Hf. unfold Dir.
  rewrite elements_buffer by (auto using normal_push; discriminate).
  simpl rev. rewrite app_assoc, removelast_last.
  destruct out as [|a below].
  - now destruct r.
  - destruct (rev_not_nil (a :: below)) as (x & l' & E); [discriminate|].
    rewrite E.
    assert (B : buffer r (a :: below)
                = String.concat "/" ((if r then [""] else []) ++ x :: l')).
    { unfold buffer. rewrite E. now destruct r. }
    transitivity
      (Clean (String.concat "/" ((if r then [""] else []) ++ x :: l') ++ "/"));
      [now destruct r|].
    rewrite <- B, Clean_buffer_sep; auto.
    + simpl. now rewrite andb_false_r.
    + right. discriminate.
Qed.

Lemma Base_buffer_file (r : bool) (out : list string) (f : string) :
  normal r out = true -> real f = true -> Base (buffer r (f :: out)) = f.
Proof.
  intros Hn Hf. pose proof (real_spec f Hf) as (H1 & _).
  unfold Base.
  rewrite buffer_not_empty by (auto using normal_push; right; discriminate).
  rewrite elements_buffer by (auto using normal_push; discriminate).
  simpl rev. rewrite app_assoc, filter_app. simpl filter. rewrite H1. simpl negb.
  cbv iota. apply match_last.
Qed.

(** A real element joined to a directory lies directly under it: the
    directory part of the joined path is the cleaned directory and its last
    element is the name. *)
Lemma Join_file (d f : string) :
  real f = true ->
  Dir (Join [d; f]) = Clean d /\ Base (Join [d; f]) = f.
Proof.
  intros Hf. pose proof (real_spec f Hf) as (H1 & _ & _ & H4).
  destruct (String.eqb d "") eqn:Hd.
  - apply String.eqb_eq in Hd. subst d. simpl Join. rewrite H1.
    simpl String.concat. rewrite (Clean_real f Hf). split.
    + unfold Dir. now rewrite (elements_no_sep f H4).
    + unfold Base. rewrite H1, (elements_no_sep f H4). simpl. now rewrite H1.
  - simpl Join. rewrite Hd.
    change (d ++ String "/" f) with (d ++ "/" ++ f).
    rewrite (Clean_append_real d f Hd Hf).
    pose proof (normal_of_elements d) as Hn. split.
    + rewrite (Dir_buffer_file _ _ _ Hn Hf). unfold Clean. now rewrite Hd.
    + now apply Base_buffer_file.
Qed.

Lemma no_sep_append (a b : string) :
  no_sep (a ++ b) = no_sep a && no_sep b.
Proof.
  induction a as [|c a IH]; simpl; [reflexivity|].
  now rewrite IH, andb_assoc.
Qed.

Lemma length_append (a b : string) :
  String.length (a ++ b) = (String.length a + String.length b)%nat.
Proof. induction a as [|c a IH]; simpl; [reflexivity | now rewrite IH]. Qed.

Lemma no_sep_string_of_uint (d : Decimal.uint) :
  no_sep (NilEmpty.string_of_uint d) = true.
Proof. induction d; simpl; auto. Qed.

Lemma no_sep_fmt_d (n : Z) : no_sep (fmt.d n) = true.
Proof.
  unfold fmt.d, NilZero.string_of_int, NilZero.string_of_uint.
  destruct (Z.to_int n) as [d|d]; destruct d; simpl;
    auto using no_sep_string_of_uint.
Qed.

(** A name with an extension of three letters is a real path element when
    its stem has no separator. *)
Lemma real_with_extension (stem : string) :
  no_sep stem = true -> real (stem ++ ".gif") = true.
Proof.
  intros Hs. unfold real.
  rewrite no_sep_append, Hs.
  assert (L : (4 <= String.length (stem ++ ".gif"))%nat)
    by (rewrite length_append; simpl; lia).
  assert (E : forall x, (String.length x < 4)%nat ->
                        String.eqb (stem ++ ".gif") x = false).
  { intros x Hx. apply String.eqb_neq. intros Heq. rewrite Heq in L. lia. }
  rewrite !E by (simpl; lia). reflexivity.
Qed.

End PathFacts.

(** Without a video-classified entry the scan of a named directory gives the
    cleaned directory path, which is never the empty string. *)
Lemma findNewestFile_without_video (dir : string) (w : World) :
  dir <> "" ->
  (forall f, In f (ReadDir (sys w) dir) -> IsVideo f = false) ->
  result (findNewestFile dir w) = Some (filepath.Clean dir) /\
  filepath.Clean dir <> "".
Proof.
  intros Hd Hnone. apply String.eqb_neq in Hd. split.
  - rewrite findNewestFile_result, (pick_stable (ReadDir (sys w) dir) "" 0).
    + simpl filepath.Join. rewrite Hd.
      change (String.concat "/" [dir; ""]) with (dir ++ "/").
      now rewrite Clean_trailing_sep.
    + intros f u Hf Hc. apply candidate_video in Hc as [Vf _].
      rewrite (Hnone f Hf) in Vf. discriminate.
  - apply String.eqb_neq, Clean_not_empty.
Qed.

(** ** Running commands and uploading *)

Section Runs.

Variable os : OS.

(** A command always comes back: its argv is recorded, the machine is what
    the command left, and only log records are added besides. *)
Lemma runCmd_runs (name : string) (arg : list string) (w : World) :
  exists l,
    runCmd os name arg w =
      Returns tt
        {| sys := fst (CombinedOutput os (name :: arg) (sys w));
           stdout := stdout w;
           logs := (logs w ++ l)%list;
           commands := (commands w ++ [name :: arg])%list;
           pipeline := pipeline w |}.
Proof.
  unfold runCmd, bind, log_Debug, log_call, get_sys. simpl.
  destruct (CombinedOutput os (name :: arg) (sys w)) as [s' [out err]]. simpl.
  unfold printOutput, printError, bind, log_Debug, log_Error, log_call, ret.
  destruct (0 <? String.length out)%nat; destruct err; simpl;
    rewrite <- ?app_assoc; eexists; reflexivity.
Qed.

Lemma uploadGCP_runs (bucket file key : string) (w : World) :
  String.eqb bucket "" = false ->
  exists l,
    uploadGCP os bucket file key w =
      Returns tt
        {| sys := clipboard_written os
                    ("https://storage.googleapis.com/" ++ bucket ++ "/" ++ key)
                    (fst (CombinedOutput os (gsutil_argv bucket file) (sys w)));
           stdout := (stdout w ++
                      [("https://storage.googleapis.com/" ++ bucket ++ "/" ++ key)%string])%list;
           logs := (logs w ++ l)%list;
           commands := (commands w ++ [gsutil_argv bucket file])%list;
           pipeline := pipeline w |}.
Proof.
  intros Hb. unfold uploadGCP. rewrite Hb. unfold bind.
  destruct (runCmd_runs "gsutil" ["cp"; file; "gs://" ++ bucket] w) as (l & ->).
  exists l. reflexivity.
Qed.

Lemma uploadS3_runs (bucket file key : string) (w : World) :
  String.eqb bucket "" = false ->
  exists l,
    uploadS3 os bucket file key w =
      Returns tt
        {| sys := clipboard_written os
                    ("https://" ++ bucket ++ ".s3.amazonaws.com/" ++ key)
                    (fst (CombinedOutput os (aws_argv bucket file key) (sys w)));
           stdout := (stdout w ++
                      [("https://" ++ bucket ++ ".s3.amazonaws.com/" ++ key)%string])%list;
           logs := (logs w ++ l)%list;
           commands := (commands w ++ [aws_argv bucket file key])%list;
           pipeline := pipeline w |}.
Proof.
  intros Hb. unfold uploadS3. rewrite Hb. unfold bind.
  destruct (runCmd_runs "aws"
              ["s3"; "cp"; file; "s3://" ++ bucket ++ "/" ++ key;
               "--acl"; "public-read"] w) as (l & ->).
  exists l. reflexivity.
Qed.

End Runs.

(** C7 as stated does not hold: on a machine without a clipboard utility
    [clipboard.WriteAll] fails, the uploader drops the error, and the
    clipboard still holds what was copied earlier, not the URL. *)
Lemma upload_clipboard_not_always_written :
  ~ (forall (os : OS) (bucket file key : string) (w : World),
       bucket <> "" ->
       exists w',
         uploadGCP os bucket file key w = Returns tt w' /\
         stdout w' =
           (stdout w ++
            [("https://storage.googleapis.com/" ++ bucket ++ "/" ++ key)%string])%list /\
         clipboard (sys w') =
           "https://storage.googleapis.com/" ++ bucket ++ "/" ++ key).
Proof.
  intros H.
  destruct (H no_clipboard_os "gifs" "/v/17.gif" "17.gif" (start []))
    as (w' & E & _ & C); [discriminate|].
  vm_compute in E. injection E as <-. vm_compute in C. discriminate C.
Qed.

(** C7, amended: with a non-empty bucket each uploader runs its vendor's copy
    command and then prints the URL of its store's template, the bucket and
    the object key, [https://storage.googleapis.com/<bucket>/<objectKey>]
    for GCS and [https://<bucket>.s3.amazonaws.com/<objectKey>] for S3, and
    hands that same URL to [clipboard.WriteAll]: after the call the
    clipboard holds exactly that URL when the write succeeds, and is as the
    copy command left it when the write fails, the error being dropped. *)
Theorem upload_publishes_template_url (os : OS) (bucket file key : string)
    (w : World) :
  bucket <> "" ->
  (exists w',
     uploadGCP os bucket file key w = Returns tt w' /\
     commands w' =
       (commands w ++ [["gsutil"; "cp"; file; ("gs://" ++ bucket)%string]])%list /\
     stdout w' =
       (stdout w ++
        [("https://storage.googleapis.com/" ++ bucket ++ "/" ++ key)%string])%list /\
     clipboard (sys w') =
       match
         ClipboardWriteErr os
           ("https://storage.googleapis.com/" ++ bucket ++ "/" ++ key)
           (fst (CombinedOutput os ["gsutil"; "cp"; file; "gs://" ++ bucket]
                   (sys w)))
       with
       | None => "https://storage.googleapis.com/" ++ bucket ++ "/" ++ key
       | Some _ =>
           clipboard
             (fst (CombinedOutput os ["gsutil"; "cp"; file; "gs://" ++ bucket]
                     (sys w)))
       end) /\
  (exists w',
     uploadS3 os bucket file key w = Returns tt w' /\
     commands w' =
       (commands w ++
        [["aws"; "s3"; "cp"; file; ("s3://" ++ bucket ++ "/" ++ key)%string;
          "--acl"; "public-read"]])%list /\
     stdout w' =
       (stdout w ++
        [("https://" ++ bucket ++ ".s3.amazonaws.com/" ++ key)%string])%list /\
     clipboard (sys w') =
       match
         ClipboardWriteErr os
           ("https://" ++ bucket ++ ".s3.amazonaws.com/" ++ key)
           (fst (CombinedOutput os
                   ["aws"; "s3"; "cp"; file; "s3://" ++ bucket ++ "/" ++ key;
                    "--acl"; "public-read"]
                   (sys w)))
       with
       | None => "https://" ++ bucket ++ ".s3.amazonaws.com/" ++ key
       | Some _ =>
           clipboard
             (fst (CombinedOutput os
                     ["aws"; "s3"; "cp"; file; "s3://" ++ bucket ++ "/" ++ key;
                      "--acl"; "public-read"]
                     (sys w)))
       end).
Proof.
  intros Hb. apply String.eqb_neq in Hb. split.
  - destruct (uploadGCP_runs os bucket file key w Hb) as (l & E).
    eexists. split; [exact E|]. repeat split; try reflexivity.
    cbn [sys]. unfold clipboard_written, gsutil_argv.
    now destruct (ClipboardWriteErr os _ _).
  - destruct (uploadS3_runs os bucket file key w Hb) as (l & E).
    eexists. split; [exact E|]. repeat split; try reflexivity.
    cbn [sys]. unfold clipboard_written, aws_argv.
    now destruct (ClipboardWriteErr os _ _).
Qed.

Lemma upload_publishes_template_url_witness :
  (exists w',
     uploadGCP failing_os "gifs" "/v/17.gif" "17.gif" (start []) = Returns tt w' /\
     commands w' = [["gsutil"; "cp"; "/v/17.gif"; "gs://gifs"]] /\
     stdout w' = ["https://storage.googleapis.com/gifs/17.gif"] /\
     clipboard (sys w') = "https://storage.googleapis.com/gifs/17.gif") /\
  (exists w',
     uploadS3 no_clipboard_os "gifs" "/v/17.gif" "17.gif" (start []) =
       Returns tt w' /\
     commands w' =
       [["aws"; "s3"; "cp"; "/v/17.gif"; "s3://gifs/17.gif";
         "--acl"; "public-read"]] /\
     stdout w' = ["https://gifs.s3.amazonaws.com/17.gif"] /\
     clipboard (sys w') = "copied earlier").
Proof.
  split.
  - destruct (upload_publishes_template_url failing_os "gifs" "/v/17.gif"
                "17.gif" (start [])) as [(w' & E & C & O & K) _];
      [discriminate|].
    exists w'. repeat split; assumption.
  - destruct (upload_publishes_template_url no_clipboard_os "gifs" "/v/17.gif"
                "17.gif" (start [])) as [_ (w' & E & C & O & K)];
      [discriminate|].
    exists w'. repeat split; assumption.
Defined.

(** C8: with an empty bucket an uploader returns at once and the world is
    untouched: no command is run, nothing is printed, the clipboard holds
    what it held. *)
Theorem upload_empty_bucket_is_noop (os : OS) (file key : string) (w : World) :
  uploadGCP os "" file key w = Returns tt w /\
  uploadS3 os "" file key w = Returns tt w /\
  commands (world_of (uploadGCP os "" file key w)) = commands w /\
  stdout (world_of (uploadGCP os "" file key w)) = stdout w /\
  clipboard (sys (world_of (uploadGCP os "" file key w))) = clipboard (sys w) /\
  commands (world_of (uploadS3 os "" file key w)) = commands w /\
  stdout (world_of (uploadS3 os "" file key w)) = stdout w /\
  clipboard (sys (world_of (uploadS3 os "" file key w))) = clipboard (sys w).
Proof. repeat split; reflexivity. Qed.

(** The path [outfn] is directly under [dist] when [dist] is set and
    directly under [src] when it is not: its directory part is that
    directory, cleaned, and its last element is [newName] in decimal with
    the extension [.gif]. *)
Lemma outfn_directly_under_dist_or_src (c : Context) (newName : Z) :
  filepath.Dir (outfn c newName) =
    filepath.Clean
      (if String.eqb (String_ c "dist") "" then String_ c "src"
       else String_ c "dist") /\
  filepath.Base (outfn c newName) = fmt.d newName ++ ".gif".
Proof.
  unfold outfn, distDir, outputFile.
  apply Join_file, real_with_extension, no_sep_fmt_d.
Qed.

(** ** The conversion pipeline *)

Lemma rooted_Clean (p : string) :
  filepath.rooted p = true ->
  String.eqb (filepath.Clean p) "" = false /\
  endsWithDot (filepath.Clean p) = false.
Proof.
  intros R. split; [apply Clean_not_empty|].
  pose proof (normal_of_elements p) as Hn.
  unfold filepath.Clean.
  destruct (String.eqb p "") eqn:Hp;
    [apply String.eqb_eq in Hp; subst p; discriminate R|].
  rewrite R in *. cbv [negb andb].
  destruct (fold_left (filepath.clean_step true) (filepath.elements p) [])
    as [|a below]; [reflexivity|].
  unfold endsWithDot.
  rewrite elements_buffer by (auto; discriminate).
  simpl rev. rewrite app_assoc, last_last.
  simpl in Hn. apply andb_prop in Hn as [_ Ha].
  rewrite andb_false_r, orb_false_r in Ha.
  now apply real_spec in Ha.
Qed.

Lemma scratch_removable (suffix : string) :
  String.eqb (scratch suffix) "" = false /\ endsWithDot (scratch suffix) = false.
Proof. unfold scratch. simpl filepath.Join. now apply rooted_Clean. Qed.

(** After a deferred [os.RemoveAll] on a removable path nothing of it is
    left, whatever the body did. *)
Lemma defer_RemoveAll {A : Type} (path : string) (body : M A) (w w' : World)
    (a : A) :
  String.eqb path "" = false ->
  endsWithDot path = false ->
  defer (os_RemoveAll path) body w = Returns a w' ->
  ~ In path (paths (sys w')) /\
  forall p, In p (paths (sys w')) -> has_prefix (path ++ "/") p = false.
Proof.
  intros Hne Hdot. unfold defer.
  destruct (body w) as [a1 w1|]; [|discriminate].
  unfold os_RemoveAll. rewrite Hne, Hdot. simpl.
  intros [= _ <-]. simpl. split.
  - intros Hin. apply filter_In in Hin as [_ K].
    rewrite String.eqb_refl in K. discriminate.
  - intros p Hin. apply filter_In in Hin as [_ K].
    apply negb_true_iff, orb_false_iff in K. tauto.
Qed.

Section Pipeline.

Variable os : OS.

Lemma convert_removes_scratch (c : Context) (videoFile : string)
    (w w' : World) :
  convert os c videoFile w = Returns tt w' ->
  exists suffix,
    TempDirSuffix os "/tmp" "pngs" (sys w) = inr suffix /\
    ~ In (scratch suffix) (paths (sys w')) /\
    forall p, In p (paths (sys w')) ->
              has_prefix (scratch suffix ++ "/") p = false.
Proof.
  unfold convert, bind.
  destruct (String.eqb videoFile ""); [discriminate|]. simpl.
  unfold createTmpDir, bind, ioutil_TempDir, bind, get_sys.
  destruct (TempDirSuffix os "/tmp" "pngs" (sys w)) as [err|suffix] eqn:T;
    [discriminate|].
  cbn [put_sys ret]. intros H. exists suffix. split; [reflexivity|].
  destruct (scratch_removable suffix) as [Hne Hdot].
  exact (defer_RemoveAll _ _ _ _ _ Hne Hdot H).
Qed.

(** With a video file and a scratch directory the conversion returns, and
    its three commands were run in order whatever each of them answered. *)
Lemma convert_runs (c : Context) (videoFile suffix : string) (w : World) :
  String.eqb videoFile "" = false ->
  TempDirSuffix os "/tmp" "pngs" (sys w) = inr suffix ->
  exists w',
    convert os c videoFile w = Returns tt w' /\
    pipeline w' = pipeline w /\
    commands w' =
      (commands w ++
       ffmpeg_argv videoFile (scratch suffix) ::
       gifski_argv c (scratch suffix)
         (Now (fst (CombinedOutput os (ffmpeg_argv videoFile (scratch suffix))
                      (with_path (scratch suffix) (sys w))))) ::
       (if String.eqb (String_ c "bucket") "" then []
        else [gsutil_argv (String_ c "bucket")
                (outfn c
                   (Now (fst (CombinedOutput os
                                (ffmpeg_argv videoFile (scratch suffix))
                                (with_path (scratch suffix) (sys w))))))]))%list.
Proof.
  intros Hv T. unfold convert, bind. rewrite Hv. simpl.
  unfold createTmpDir, bind, ioutil_TempDir, bind, get_sys. rewrite T.
  cbn [put_sys ret]. unfold defer, bind, createGif.
  match goal with
  | |- context [runCmd os ?n ?a ?x] =>
      destruct (runCmd_runs os n a x) as (l1 & ->)
  end.
  cbn [time_Now_Unix sys].
  match goal with
  | |- context [runCmd os ?n ?a ?x] =>
      destruct (runCmd_runs os n a x) as (l2 & ->)
  end.
  destruct (String.eqb (String_ c "bucket") "") eqn:Hb.
  - unfold uploadGCP. rewrite Hb. simpl.
    eexists. split; [reflexivity|]. split; [reflexivity|].
    simpl. now rewrite <- app_assoc.
  - match goal with
    | |- context [uploadGCP os ?b ?f ?k ?x] =>
        destruct (uploadGCP_runs os b f k x Hb) as (l3 & ->)
    end.
    simpl. eexists. split; [reflexivity|]. split; [reflexivity|].
    simpl. now rewrite <- !app_assoc.
Qed.

End Pipeline.

(** C5: when [process] returns, the scratch directory made at its start is
    not on disk any more, and nothing below it is, whatever the commands of
    the frame extraction, the encoding and the upload answered or did to the
    machine.  This holds for [process] of both revisions that convert. *)
Theorem process_removes_scratch_dir (os : OS) (c : Context) (w w' : World) :
  (process os c w = Returns tt w' ->
   exists suffix,
     TempDirSuffix os "/tmp" "pngs" (sys w) = inr suffix /\
     ~ In (scratch suffix) (paths (sys w')) /\
     forall p, In p (paths (sys w')) ->
               has_prefix (scratch suffix ++ "/") p = false) /\
  (forall videoFile,
     Watch.process os c videoFile w = Returns tt w' ->
     exists suffix,
       TempDirSuffix os "/tmp" "pngs" (sys w) = inr suffix /\
       ~ In (scratch suffix) (paths (sys w')) /\
       forall p, In p (paths (sys w')) ->
                 has_prefix (scratch suffix ++ "/") p = false).
Proof.
  split.
  - unfold process, bind.
    destruct (1 <=? List.length (Args c))%nat.
    + apply convert_removes_scratch.
    + destruct (findNewestFile_pick (String_ c "src") w) as (w1 & -> & L).
      destruct L as (Hs & _). rewrite <- Hs.
      apply convert_removes_scratch.
  - intros videoFile. unfold Watch.process, bind, enter_pipeline.
    intros H. apply convert_removes_scratch in H. exact H.
Qed.

Lemma process_removes_scratch_dir_witness :
  exists w',
    process failing_os clip_config (start []) = Returns tt w' /\
    ~ In "/tmp/pngs042" (paths (sys w')).
Proof.
  exists (world_of (process failing_os clip_config (start []))).
  assert (E : process failing_os clip_config (start [])
              = Returns tt (world_of (process failing_os clip_config (start []))))
    by (vm_compute; reflexivity).
  split; [exact E|].
  destruct (process_removes_scratch_dir failing_os clip_config (start [])
              (world_of (process failing_os clip_config (start []))))
    as [H _].
  destruct (H E) as (suffix & T & Hout & _).
  vm_compute in T. injection T as <-.
  vm_compute in Hout. vm_compute. exact Hout.
Defined.

(** C9: whatever the frame extraction answers, a nonzero exit status or an
    I/O error included, [process] does not stop there: once it has a video
    file and a scratch directory it runs the encoder next and then the
    upload, and returns. *)
Theorem process_continues_after_extraction (os : OS) (c : Context)
    (videoFile suffix : string) (w : World) :
  hd_error (Args c) = Some videoFile \/
  (Args c = [] /\
   result (findNewestFile (String_ c "src") w) = Some videoFile) ->
  videoFile <> "" ->
  TempDirSuffix os "/tmp" "pngs" (sys w) = inr suffix ->
  exists w',
    process os c w = Returns tt w' /\
    commands w' =
      (commands w ++
       ffmpeg_argv videoFile (scratch suffix) ::
       gifski_argv c (scratch suffix)
         (Now (fst (CombinedOutput os (ffmpeg_argv videoFile (scratch suffix))
                      (with_path (scratch suffix) (sys w))))) ::
       (if String.eqb (String_ c "bucket") "" then []
        else [gsutil_argv (String_ c "bucket")
                (outfn c
                   (Now (fst (CombinedOutput os
                                (ffmpeg_argv videoFile (scratch suffix))
                                (with_path (scratch suffix) (sys w))))))]))%list.
Proof.
  intros Hsel Hv T. apply String.eqb_neq in Hv.
  unfold process, bind.
  destruct Hsel as [Harg|[Hnone Hnew]].
  - destruct (Args c) as [|a args]; [discriminate|].
    injection Harg as ->. simpl.
    destruct (convert_runs os c videoFile suffix w Hv T) as (w' & E & _ & C).
    exists w'. now split.
  - rewrite Hnone. cbn [List.length Nat.leb].
    destruct (findNewestFile_pick (String_ c "src") w) as (w1 & E1 & L).
    destruct (findNewestFile (String_ c "src") w) as [p w2|]; [|discriminate].
    injection Hnew as ->. injection E1 as _ ->.
    destruct L as (Hs & _ & Hc & _).
    rewrite <- Hs in T |- *. rewrite <- Hc.
    destruct (convert_runs os c videoFile suffix w1 Hv T) as (w' & E & _ & C).
    exists w'. now split.
Qed.

Lemma process_continues_after_extraction_witness :
  exists w',
    process failing_os clip_config (start []) = Returns tt w' /\
    commands w' =
      [["ffmpeg"; "-i"; "/v/clip.mov"; "/tmp/pngs042/frame%04d.png"];
       ["/bin/sh"; "-c";
        "gifski -W 960 -r 20 -Q 100 -o /gifs/1700000000.gif /tmp/pngs042/*.png"];
       ["gsutil"; "cp"; "/gifs/1700000000.gif"; "gs://gifs"]].
Proof.
  destruct (process_continues_after_extraction failing_os clip_config
              "/v/clip.mov" "042" (start []))
    as (w' & E & C).
  - left. reflexivity.
  - discriminate.
  - reflexivity.
  - exists w'. split; [exact E|]. rewrite C. vm_compute. reflexivity.
Defined.

(** ** Watch mode *)

Create HintDb pipeline.

Lemma keeps_ret {A : Type} (a : A) : keeps_pipeline (ret a).
Proof. intros w. reflexivity. Qed.

Lemma keeps_bind {A B : Type} (m : M A) (k : A -> M B) :
  keeps_pipeline m -> (forall a, keeps_pipeline (k a)) ->
  keeps_pipeline (bind m k).
Proof.
  intros Hm Hk w. unfold bind. specialize (Hm w).
  destruct (m w) as [a w1|code w1]; simpl in *; [|exact Hm].
  now rewrite Hk.
Qed.

Lemma keeps_defer {A : Type} (cleanup : M unit) (body : M A) :
  keeps_pipeline cleanup -> keeps_pipeline body ->
  keeps_pipeline (defer cleanup body).
Proof.
  intros Hc Hb w. unfold defer. specialize (Hb w).
  destruct (body w) as [a w1|code w1]; simpl in *; [|exact Hb].
  specialize (Hc w1). destruct (cleanup w1); simpl in *; congruence.
Qed.

Lemma keeps_log_call (lv : Level) (ops : list LogArg) :
  keeps_pipeline (log_call lv ops).
Proof. intros w. reflexivity. Qed.

Lemma keeps_log_Fatal {A : Type} (ops : list LogArg) :
  keeps_pipeline (@log_Fatal A ops).
Proof. intros w. reflexivity. Qed.

Lemma keeps_get_sys : keeps_pipeline get_sys.
Proof. intros w. reflexivity. Qed.

Lemma keeps_put_sys (s : Sys) : keeps_pipeline (put_sys s).
Proof. intros w. reflexivity. Qed.

Lemma keeps_time_Now_Unix : keeps_pipeline time_Now_Unix.
Proof. intros w. reflexivity. Qed.

Lemma keeps_os_RemoveAll (path : string) : keeps_pipeline (os_RemoveAll path).
Proof. intros w. reflexivity. Qed.

Lemma keeps_runCmd (os : OS) (name : string) (arg : list string) :
  keeps_pipeline (runCmd os name arg).
Proof. intros w. now destruct (runCmd_runs os name arg w) as (l & ->). Qed.

Lemma keeps_uploadGCP (os : OS) (bucket file key : string) :
  keeps_pipeline (uploadGCP os bucket file key).
Proof.
  intros w. destruct (String.eqb bucket "") eqn:Hb.
  - unfold uploadGCP. now rewrite Hb.
  - now destruct (uploadGCP_runs os bucket file key w Hb) as (l & ->).
Qed.

Lemma keeps_uploadS3 (os : OS) (bucket file key : string) :
  keeps_pipeline (uploadS3 os bucket file key).
Proof.
  intros w. destruct (String.eqb bucket "") eqn:Hb.
  - unfold uploadS3. now rewrite Hb.
  - now destruct (uploadS3_runs os bucket file key w Hb) as (l & ->).
Qed.

#[local] Hint Resolve keeps_ret keeps_bind keeps_defer keeps_log_call
  keeps_log_Fatal keeps_get_sys keeps_put_sys keeps_time_Now_Unix
  keeps_os_RemoveAll keeps_runCmd keeps_uploadGCP keeps_uploadS3 : pipeline.

Lemma keeps_createTmpDir (os : OS) : keeps_pipeline (createTmpDir os).
Proof.
  unfold createTmpDir, ioutil_TempDir.
  apply keeps_bind.
  - apply keeps_bind; [auto with pipeline|]. intros s.
    destruct (TempDirSuffix os "/tmp" "pngs" s); auto with pipeline.
  - intros [err|dir]; auto with pipeline.
Qed.

Lemma keeps_convert (os : OS) (c : Context) (videoFile : string) :
  keeps_pipeline (convert os c videoFile).
Proof.
  unfold convert, createGif.
  apply keeps_bind.
  - destruct (String.eqb videoFile ""); auto with pipeline.
  - intros _. apply keeps_bind; [apply keeps_createTmpDir|].
    intros tmpDir. auto 10 with pipeline.
Qed.

(** Each [process] that the watcher calls notes its entry once, on the path
    it was given. *)
Lemma Watch_process_enters (os : OS) (c : Context) (videoFile : string)
    (w : World) :
  pipeline (world_of (Watch.process os c videoFile w))
  = (pipeline w ++ [videoFile])%list.
Proof.
  unfold Watch.process, bind, enter_pipeline.
  now rewrite keeps_convert.
Qed.

Lemma Upload_process_enters (os : OS) (c : Context) (videoFile : string)
    (w : World) :
  pipeline (world_of (Upload.process os c videoFile w))
  = (pipeline w ++ [videoFile])%list.
Proof.
  unfold Upload.process.
  unfold bind at 1. unfold enter_pipeline.
  match goal with
  | |- pipeline (world_of (?m ?x)) = _ =>
      assert (K : keeps_pipeline m); [|now rewrite K]
  end.
  apply keeps_bind.
  - destruct (String.eqb videoFile ""); auto with pipeline.
  - intros _. auto 10 with pipeline.
Qed.

(** The test of the watcher on the operation mask is the test of bit 0. *)
Lemma Create_test (op : fsnotify.Op) :
  (Z.land op fsnotify.Create =? fsnotify.Create) = includes_creation op.
Proof.
  unfold includes_creation, fsnotify.Create.
  change (Z.shiftl 1 0) with (Z.ones 1).
  rewrite Z.land_ones by lia. change (2 ^ 1) with 2.
  rewrite <- Z.bit0_mod. now destruct (Z.testbit op 0).
Qed.

Section EventLoop.

Variable os : OS.
Variable P : Context -> string -> M unit.
Hypothesis P_enters :
  forall c videoFile w,
    pipeline (world_of (P c videoFile w)) = (pipeline w ++ [videoFile])%list.

(** The loop enters the pipeline on the creations it received, in order,
    as far as it got; on all of them when it returns. *)
Lemma eventLoop_pipeline (c : Context) (received : list Received) :
  forall w : World,
  (returned (eventLoop P c received w) = true ->
   pipeline (world_of (eventLoop P c received w))
   = (pipeline w ++ creations received)%list) /\
  exists k,
    pipeline (world_of (eventLoop P c received w))
    = (pipeline w ++ firstn k (creations received))%list.
Proof.
  induction received as [|[event|err] rest IH]; intros w; simpl.
  - split; [now rewrite app_nil_r | exists 0%nat; now rewrite app_nil_r].
  - unfold bind, log_Debug, log_call, ret. rewrite Create_test.
    destruct (includes_creation (fsnotify.EventOp event)).
    + match goal with
      | |- context [P c ?v ?x] =>
          pose proof (P_enters c v x) as HP;
          destruct (P c v x) as [[] w1|code w1]
      end; simpl in HP |- *.
      * destruct (IH w1) as [IHr [k IHk]]. split.
        -- intros R. rewrite (IHr R), HP. now rewrite <- app_assoc.
        -- exists (S k). rewrite IHk, HP. now rewrite <- app_assoc.
      * split; [discriminate|].
        exists 1%nat. simpl. rewrite HP. reflexivity.
    + match goal with
      | |- context [eventLoop P c rest ?x] =>
          destruct (IH x) as [IHr [k IHk]]
      end.
      split; [exact IHr | exists k; exact IHk].
  - unfold bind, log_Debug, log_call.
    match goal with
    | |- context [eventLoop P c rest ?x] =>
        destruct (IH x) as [IHr [k IHk]]
    end.
    split; [exact IHr | exists k; exact IHk].
Qed.

Lemma watch_with_pipeline (c : Context) (received : list Received) (w : World) :
  (returned (watch_with os P c received w) = true ->
   pipeline (world_of (watch_with os P c received w))
   = (pipeline w ++ creations received)%list) /\
  exists k,
    pipeline (world_of (watch_with os P c received w))
    = (pipeline w ++ firstn k (creations received))%list.
Proof.
  unfold watch_with, bind, get_sys.
  destruct (NewWatcherErr os (sys w)).
  - simpl. split; [discriminate | exists 0%nat; now rewrite app_nil_r].
  - unfold log_Debug, log_call. cbn [sys].
    destruct (AddErr os (String_ c "src") (sys w)).
    + simpl. split; [discriminate | exists 0%nat; now rewrite app_nil_r].
    + match goal with
      | |- context [eventLoop P c received ?x] =>
          exact (eventLoop_pipeline c received x)
      end.
Qed.

End EventLoop.



(** ** Further properties of the scan *)

(** The scan returns the first entry that carries the greatest time. *)
Lemma findNewestFile_tie_first_wins_aux (dir : string) (w : World)
    (l1 l2 : list DirEntry) (e : DirEntry) (t : Z) :
  ReadDir (sys w) dir = (l1 ++ e :: l2)%list ->
  candidate e = Some t ->
  0 < t ->
  (forall f u, In f l1 -> candidate f = Some u -> u < t) ->
  (forall f u, In f l2 -> candidate f = Some u -> u <= t) ->
  result (findNewestFile dir w) = Some (filepath.Join [dir; Name e]).
Proof.
  intros Hfiles He Hpos H1 H2.
  rewrite findNewestFile_result, Hfiles.
  now rewrite (pick_first_max l1 l2 e t "" 0 Hpos He H1 H2).
Qed.


(** X1: [runCmd] always comes back.  It records the command, leaves the
    machine as the command left it, prints nothing, and logs the argv at
    DEBUG, then the combined output at DEBUG unless it is empty, then the
    error at ERROR if there is one. *)
Theorem runCmd_logs_and_returns (os : OS) (name : string) (arg : list string)
    (w : World) :
  runCmd os name arg w =
    Returns tt
      {| sys := fst (CombinedOutput os (name :: arg) (sys w));
         stdout := stdout w;
         logs := (logs w ++
                  run_logs (name :: arg)
                    (fst (snd (CombinedOutput os (name :: arg) (sys w))))
                    (snd (snd (CombinedOutput os (name :: arg) (sys w)))))%list;
         commands := (commands w ++ [name :: arg])%list;
         pipeline := pipeline w |}.
Proof.
  unfold runCmd, bind, log_Debug, log_call, get_sys. simpl.
  destruct (CombinedOutput os (name :: arg) (sys w)) as [s' [out err]]. simpl.
  unfold printOutput, printError, bind, log_Debug, log_Error, log_call, ret,
    run_logs, error_record.
  destruct out as [|ch out]; destruct err; simpl;
    rewrite <- ?app_assoc; reflexivity.
Qed.

Lemma range_files_logs (files : list DirEntry) :
  forall (nf : string) (nt : Z) (w : World),
  exists w',
    range_files files nf nt w = Returns (fst (pick files nf nt)) w' /\
    sys w' = sys w /\ stdout w' = stdout w /\ commands w' = commands w /\
    pipeline w' = pipeline w /\
    logs w' = (logs w ++ map error_record (stat_errors files))%list.
Proof.
  induction files as [|f rest IH]; intros nf nt w; simpl.
  - exists w. repeat split; auto. now rewrite app_nil_r.
  - unfold candidate. destruct (IsVideo f); simpl; [|apply IH].
    destruct (Stat f) as [err|currTime].
    + unfold bind, log_Error, log_call.
      match goal with
      | |- context [range_files rest nf nt ?x] =>
          destruct (IH nf nt x) as (w' & E & Hs & Ho & Hc & Hp & Hl)
      end.
      exists w'. rewrite E. repeat split; auto.
      rewrite Hl. simpl. now rewrite <- app_assoc.
    + destruct (currTime >? nt); apply IH.
Qed.

(** X2: [findNewestFile] always returns, runs no command, prints nothing
    and leaves the machine alone.  It logs one ERROR record for each
    video-classified entry that [os.Stat] failed on, in listing order; a
    failed stat on an entry that is not a video is not logged. *)
Theorem findNewestFile_only_logs_stat_errors (dir : string) (w : World) :
  exists p w',
    findNewestFile dir w = Returns p w' /\
    sys w' = sys w /\ stdout w' = stdout w /\ commands w' = commands w /\
    pipeline w' = pipeline w /\
    logs w' =
      (logs w ++ map error_record (stat_errors (ReadDir (sys w) dir)))%list.
Proof.
  unfold findNewestFile, bind, get_sys.
  destruct (range_files_logs (ReadDir (sys w) dir) "" 0 w) as (w' & E & H).
  rewrite E. eexists. exists w'. split; [reflexivity | exact H].
Qed.

Lemma pick_filter_video (files : list DirEntry) :
  forall (nf : string) (nt : Z),
  pick (filter IsVideo files) nf nt = pick files nf nt.
Proof.
  induction files as [|f rest IH]; intros nf nt; simpl; [reflexivity|].
  destruct (IsVideo f) eqn:V; simpl.
  - destruct (candidate f) as [t|]; [destruct (t >? nt)|]; apply IH.
  - unfold candidate. rewrite V. apply IH.
Qed.

(** X3: entries that are not video-classified have no influence on what
    [findNewestFile] returns: a listing and the same listing without them
    give the same path. *)
Theorem findNewestFile_ignores_non_video (dir : string) (w w0 : World) :
  ReadDir (sys w0) dir = filter IsVideo (ReadDir (sys w) dir) ->
  result (findNewestFile dir w0) = result (findNewestFile dir w).
Proof.
  intros H. rewrite !findNewestFile_result, H.
  now rewrite pick_filter_video.
Qed.

Lemma findNewestFile_ignores_non_video_witness :
  result (findNewestFile "/v" (start [movie "a.mov" 100; movie "b.mov" 300]))
  = result (findNewestFile "/v"
              (start [document "z.mp4" 900; movie "a.mov" 100;
                      document "notes.txt" 500; movie "b.mov" 300])).
Proof.
  apply (findNewestFile_ignores_non_video "/v"
           (start [document "z.mp4" 900; movie "a.mov" 100;
                   document "notes.txt" 500; movie "b.mov" 300])
           (start [movie "a.mov" 100; movie "b.mov" 300])).
  reflexivity.
Defined.

(** X4: times are compared as whole-second unix timestamps.  When the
    timestamp of one compared entry is greater than zero and strictly
    greater than the timestamp of every other compared entry, the order of
    the listing does not matter: every reordering of it gives that entry. *)
Theorem findNewestFile_unique_newest_any_order (dir : string) (w w0 : World)
    (l1 l2 : list DirEntry) (e : DirEntry) (t : Z) :
  ReadDir (sys w) dir = (l1 ++ e :: l2)%list ->
  candidate e = Some t ->
  0 < t ->
  (forall f u, In f (l1 ++ l2)%list -> candidate f = Some u -> u < t) ->
  Permutation (ReadDir (sys w) dir) (ReadDir (sys w0) dir) ->
  result (findNewestFile dir w0) = Some (filepath.Join [dir; Name e]).
Proof.
  intros Hfiles He Hpos Hothers Hperm.
  assert (Hin : In e (ReadDir (sys w0) dir)).
  { apply (Permutation_in e Hperm). rewrite Hfiles.
    apply in_or_app. right. now left. }
  apply in_split in Hin as (k1 & k2 & Hk).
  rewrite Hfiles, Hk in Hperm. apply Permutation_app_inv in Hperm.
  assert (Hk' : forall f u, In f (k1 ++ k2)%list ->
                            candidate f = Some u -> u < t).
  { intros f u Hf. apply Hothers.
    apply (Permutation_in f (Permutation_sym Hperm) Hf). }
  apply (findNewestFile_tie_first_wins_aux dir w0 k1 k2 e t Hk He Hpos).
  - intros f u Hf. apply Hk'. apply in_or_app. now left.
  - intros f u Hf Hc. apply Z.lt_le_incl.
    apply (Hk' f u); [apply in_or_app; now right | exact Hc].
Qed.

Lemma findNewestFile_unique_newest_any_order_witness :
  result (findNewestFile "/v"
            (start [movie "b.mov" 300; document "n.txt" 900; movie "a.mov" 100]))
  = Some "/v/b.mov".
Proof.
  apply (findNewestFile_unique_newest_any_order "/v"
           (start [movie "a.mov" 100; movie "b.mov" 300; document "n.txt" 900])
           (start [movie "b.mov" 300; document "n.txt" 900; movie "a.mov" 100])
           [movie "a.mov" 100] [document "n.txt" 900] (movie "b.mov" 300) 300).
  - reflexivity.
  - reflexivity.
  - lia.
  - intros f u [<-|[<-|[]]] C; [injection C; lia | discriminate C].
  - simpl.
    apply (Permutation_cons_app [movie "b.mov" 300; document "n.txt" 900] []).
    rewrite app_nil_r. apply Permutation_refl.
Defined.

Lemma Legacy_range_files_all_video (files : list DirEntry) :
  (forall f, In f files -> IsVideo f = true) ->
  forall (nf : string) (nt : Z) (w : World),
  Legacy.range_files files nf nt w = range_files files nf nt w.
Proof.
  induction files as [|f rest IH]; intros Hall nf nt w; simpl; [reflexivity|].
  assert (Hrest : forall g, In g rest -> IsVideo g = true)
    by (intros g Hg; apply Hall; now right).
  rewrite (Hall f) by now left. simpl.
  destruct (Stat f) as [err|currTime].
  - unfold bind. destruct (log_Error [Str err] w); [now apply IH | reflexivity].
  - destruct (currTime >? nt); now apply IH.
Qed.

(** X5: on a directory whose entries are all video-classified the scan of
    the earlier revision, which has no video test, and the scan with the
    test do the same: same path, same log records. *)
Theorem Legacy_findNewestFile_agrees_on_videos (dir : string) (w : World) :
  (forall f, In f (ReadDir (sys w) dir) -> IsVideo f = true) ->
  Legacy.findNewestFile dir w = findNewestFile dir w.
Proof.
  intros Hall. unfold Legacy.findNewestFile, findNewestFile, bind, get_sys.
  now rewrite Legacy_range_files_all_video.
Qed.

Lemma Legacy_findNewestFile_agrees_on_videos_witness :
  Legacy.findNewestFile "/v" (start [movie "a.mov" 100; vanished "b.mov"])
  = findNewestFile "/v" (start [movie "a.mov" 100; vanished "b.mov"]).
Proof.
  apply (Legacy_findNewestFile_agrees_on_videos "/v"
           (start [movie "a.mov" 100; vanished "b.mov"])).
  intros f [<-|[<-|[]]]; reflexivity.
Defined.

(** X6: when the names in the listing are file names (not empty, not [.]
    or [..], without a separator, as [ioutil.ReadDir] gives them), the path
    [findNewestFile] returns for the entry it keeps lies directly under
    [dir]: its directory part is [dir], cleaned, and its last element is the
    name of a video-classified entry of the listing.  When it keeps no entry
    it returns [Join] of [dir] and the empty name. *)
Theorem findNewestFile_path_directly_under_dir (dir : string) (w : World) :
  (forall f, In f (ReadDir (sys w) dir) -> filepath.real (Name f) = true) ->
  exists p,
    result (findNewestFile dir w) = Some p /\
    (p = filepath.Join [dir; ""] \/
     exists e,
       In e (ReadDir (sys w) dir) /\ IsVideo e = true /\
       filepath.Dir p = filepath.Clean dir /\
       filepath.Base p = Name e).
Proof.
  intros Hnames. rewrite findNewestFile_result. eexists. split; [reflexivity|].
  destruct (pick_cases (ReadDir (sys w) dir) "" 0)
    as [[E _]|(e & t & Hin & Hc & _ & E & _)]; rewrite E; simpl fst.
  - now left.
  - right. exists e. apply candidate_video in Hc as [Ve _].
    destruct (Join_file dir (Name e) (Hnames e Hin)) as [HD HB].
    repeat split; auto.
Qed.

Lemma findNewestFile_path_directly_under_dir_witness :
  exists p,
    result (findNewestFile "/home/u//Movies/"
              (start [movie "a.mov" 100; document "n.txt" 900])) = Some p /\
    (p = filepath.Join ["/home/u//Movies/"; ""] \/
     exists e,
       In e [movie "a.mov" 100; document "n.txt" 900] /\ IsVideo e = true /\
       filepath.Dir p = filepath.Clean "/home/u//Movies/" /\
       filepath.Base p = Name e).
Proof.
  apply (findNewestFile_path_directly_under_dir "/home/u//Movies/"
           (start [movie "a.mov" 100; document "n.txt" 900])).
  intros f [<-|[<-|[]]]; reflexivity.
Defined.

(** ** The path of the gif *)

(** [process] of the first revision is the conversion of the file it
    chooses, from a world that differs from the first by the records of the
    scan. *)
Lemma process_selects (os : OS) (c : Context) (videoFile : string) (w : World) :
  hd_error (Args c) = Some videoFile \/
  (Args c = [] /\
   result (findNewestFile (String_ c "src") w) = Some videoFile) ->
  exists w1,
    process os c w = convert os c videoFile w1 /\
    sys w1 = sys w /\ stdout w1 = stdout w /\ commands w1 = commands w /\
    pipeline w1 = pipeline w /\
    logs w1 = (logs w ++ scan_records c w)%list.
Proof.
  unfold process, bind, scan_records. intros [Harg|[Hnone Hnew]].
  - destruct (Args c) as [|a args]; [discriminate|].
    injection Harg as ->. exists w. simpl.
    repeat split; auto. now rewrite app_nil_r.
  - rewrite Hnone. cbn [List.length Nat.leb].
    unfold findNewestFile, bind, get_sys in Hnew |- *.
    destruct (range_files_logs (ReadDir (sys w) (String_ c "src")) "" 0 w)
      as (w1 & E & H).
    rewrite E in Hnew |- *. cbn [ret result] in Hnew |- *.
    injection Hnew as Hj. exists w1. split; [|exact H].
    rewrite <- Hj. reflexivity.
Qed.

(** C4: when [process] has a video file and a scratch directory, the path
    it gives the encoder after [-o], and gsutil when a bucket is set, is
    directly under [dist] when [dist] is set and directly under [src] when
    it is not (its directory part is that directory, cleaned), and its file
    name is the clock reading [time.Now().Unix()], taken once the frame
    extraction has run, in decimal whole seconds with the extension
    [.gif]. *)
Theorem process_writes_gif_under_dist_or_src (os : OS) (c : Context)
    (videoFile suffix : string) (w : World) :
  hd_error (Args c) = Some videoFile \/
  (Args c = [] /\
   result (findNewestFile (String_ c "src") w) = Some videoFile) ->
  videoFile <> "" ->
  TempDirSuffix os "/tmp" "pngs" (sys w) = inr suffix ->
  exists w' artifact,
    process os c w = Returns tt w' /\
    commands w' =
      (commands w ++
       ["ffmpeg"; "-i"; videoFile;
        filepath.Join [filepath.Join ["/tmp"; ("pngs" ++ suffix)%string];
                       "frame%04d.png"]] ::
       ["/bin/sh"; "-c";
        ("gifski -W " ++ fmt.d (Int c "width")
         ++ " -r " ++ fmt.d (Int c "frames")
         ++ " -Q " ++ fmt.d (Int c "quality")
         ++ " -o " ++ artifact ++ " "
         ++ filepath.Join [filepath.Join ["/tmp"; "pngs" ++ suffix]; "*.png"])%string] ::
       (if String.eqb (String_ c "bucket") "" then []
        else [["gsutil"; "cp"; artifact;
               ("gs://" ++ String_ c "bucket")%string]]))%list /\
    filepath.Dir artifact =
      filepath.Clean
        (if String.eqb (String_ c "dist") "" then String_ c "src"
         else String_ c "dist") /\
    filepath.Base artifact =
      fmt.d
        (Now (fst (CombinedOutput os
                     ["ffmpeg"; "-i"; videoFile;
                      filepath.Join [filepath.Join ["/tmp"; "pngs" ++ suffix];
                                     "frame%04d.png"]]
                     (with_path (filepath.Join ["/tmp"; "pngs" ++ suffix])
                        (sys w)))))
      ++ ".gif".
Proof.
  intros Hsel Hv T. apply String.eqb_neq in Hv.
  destruct (process_selects os c videoFile w Hsel)
    as (w1 & -> & Hs & _ & Hc & _).
  rewrite <- Hs in T |- *. rewrite <- Hc.
  destruct (convert_runs os c videoFile suffix w1 Hv T) as (w' & E & _ & C).
  exists w'. eexists. split; [exact E|]. split; [exact C|].
  apply outfn_directly_under_dist_or_src.
Qed.

Lemma process_writes_gif_under_dist_or_src_witness :
  exists w' artifact,
    process failing_os clip_config (start []) = Returns tt w' /\
    commands w' =
      [["ffmpeg"; "-i"; "/v/clip.mov"; "/tmp/pngs042/frame%04d.png"];
       ["/bin/sh"; "-c";
        ("gifski -W 960 -r 20 -Q 100 -o " ++ artifact
         ++ " /tmp/pngs042/*.png")%string];
       ["gsutil"; "cp"; artifact; "gs://gifs"]] /\
    filepath.Dir artifact = "/gifs" /\
    filepath.Base artifact = "1700000000.gif".
Proof.
  destruct (process_writes_gif_under_dist_or_src failing_os clip_config
              "/v/clip.mov" "042" (start []))
    as (w' & artifact & E & C & D & B).
  - left. reflexivity.
  - discriminate.
  - reflexivity.
  - exists w', artifact. split; [exact E|].
    split; [rewrite C; vm_compute; reflexivity|].
    split; [rewrite D | rewrite B]; vm_compute; reflexivity.
Defined.

(** ** Further properties of the conversion pipeline *)

(** A path that [Clean] returned is clean. *)
Lemma Clean_buffer (r : bool) (out : list string) :
  filepath.normal r out = true -> (r = true \/ out <> []) ->
  filepath.Clean (filepath.buffer r out) = filepath.buffer r out.
Proof.
  intros Hn H. unfold filepath.Clean.
  rewrite (buffer_not_empty r out Hn H).
  pose proof (buffer_rooted r out "" Hn H) as R.
  rewrite append_nil_r in R. rewrite R.
  assert (F : fold_left (filepath.clean_step r)
                (filepath.elements (filepath.buffer r out)) [] = out).
  { destruct out as [|a below].
    - destruct H as [->|H]; [reflexivity | congruence].
    - rewrite elements_buffer by (auto; discriminate).
      rewrite fold_left_app.
      replace (fold_left (filepath.clean_step r) (if r then [""] else []) [])
        with (@nil string) by now destruct r.
      now apply fold_clean_step_rev. }
  rewrite F. destruct r; [reflexivity|].
  destruct H as [H|H]; [discriminate|]. now destruct out.
Qed.

Lemma Clean_idempotent (p : string) :
  filepath.Clean (filepath.Clean p) = filepath.Clean p.
Proof.
  unfold filepath.Clean at 2 3.
  destruct (String.eqb p ""); [reflexivity|].
  pose proof (normal_of_elements p) as Hn.
  destruct (filepath.rooted p); cbv [negb andb].
  - apply Clean_buffer; auto.
  - destruct (fold_left (filepath.clean_step false) (filepath.elements p) [])
      as [|a below] eqn:E; [reflexivity|].
    cbn [List.length Nat.eqb].
    apply Clean_buffer; [exact Hn | right; discriminate].
Qed.

Lemma scratch_clean (suffix : string) :
  filepath.Clean (scratch suffix) = scratch suffix.
Proof. unfold scratch. simpl filepath.Join. apply Clean_idempotent. Qed.

(** X7: an empty video path stops every revision of [process] at its guard:
    the program exits with status 1 after one CRITICAL record, and no
    scratch directory is made, no command run, nothing printed.  For the
    first revision the path is empty when the first argument is, or when
    there is no argument and the scan returns the empty string. *)
Theorem process_empty_path_is_fatal (os : OS) (c : Context) (w : World) :
  (hd_error (Args c) = Some "" \/
   (Args c = [] /\ result (findNewestFile (String_ c "src") w) = Some "") ->
   process os c w =
     Exits 1
       {| sys := sys w; stdout := stdout w;
          logs := (logs w ++ scan_records c w ++
                   [critical_record (Str no_file_message)])%list;
          commands := commands w; pipeline := pipeline w |}) /\
  Watch.process os c "" w =
    Exits 1
      {| sys := sys w; stdout := stdout w;
         logs := (logs w ++ [critical_record (Str no_file_message)])%list;
         commands := commands w; pipeline := (pipeline w ++ [""])%list |} /\
  Upload.process os c "" w =
    Exits 1
      {| sys := sys w; stdout := stdout w;
         logs := (logs w ++ [critical_record (Str no_file_message)])%list;
         commands := commands w; pipeline := (pipeline w ++ [""])%list |}.
Proof.
  repeat split; try reflexivity.
  intros Hsel.
  destruct (process_selects os c "" w Hsel)
    as (w1 & -> & Hs & Ho & Hc & Hp & Hl).
  unfold convert, bind. simpl. unfold critical_record.
  now rewrite Hs, Ho, Hc, Hp, Hl, <- app_assoc.
Qed.

Lemma process_empty_path_is_fatal_witness :
  process quiet_os bare_config (start [document "notes.txt" 500]) =
    Exits 1
      {| sys := machine [document "notes.txt" 500]; stdout := [];
         logs := [critical_record (Str no_file_message)];
         commands := []; pipeline := [] |}.
Proof.
  destruct (process_empty_path_is_fatal quiet_os bare_config
              (start [document "notes.txt" 500])) as [H _].
  rewrite H; [reflexivity|].
  right. split; reflexivity.
Defined.

Lemma convert_scratch_failure (os : OS) (c : Context) (videoFile : string)
    (err : error) (w : World) :
  String.eqb videoFile "" = false ->
  TempDirSuffix os "/tmp" "pngs" (sys w) = inl err ->
  convert os c videoFile w =
    Exits 1
      {| sys := sys w; stdout := stdout w;
         logs := (logs w ++ [critical_record (Err err)])%list;
         commands := commands w; pipeline := pipeline w |}.
Proof.
  intros Hv T. unfold convert, bind. rewrite Hv. simpl.
  unfold createTmpDir, bind, ioutil_TempDir, bind, get_sys. rewrite T.
  reflexivity.
Qed.

(** X8: when the scratch directory cannot be made, [process] of both
    converting revisions exits with status 1 after logging the error at
    CRITICAL, whether the video file came from the command line or from the
    scan; no command has been run and the machine is as it was. *)
Theorem process_scratch_failure_is_fatal (os : OS) (c : Context)
    (videoFile : string) (err : error) (w : World) :
  videoFile <> "" ->
  TempDirSuffix os "/tmp" "pngs" (sys w) = inl err ->
  (hd_error (Args c) = Some videoFile \/
   (Args c = [] /\
    result (findNewestFile (String_ c "src") w) = Some videoFile) ->
   process os c w =
     Exits 1
       {| sys := sys w; stdout := stdout w;
          logs := (logs w ++ scan_records c w ++
                   [critical_record (Err err)])%list;
          commands := commands w; pipeline := pipeline w |}) /\
  Watch.process os c videoFile w =
    Exits 1
      {| sys := sys w; stdout := stdout w;
         logs := (logs w ++ [critical_record (Err err)])%list;
         commands := commands w;
         pipeline := (pipeline w ++ [videoFile])%list |}.
Proof.
  intros Hv T. apply String.eqb_neq in Hv. split.
  - intros Hsel.
    destruct (process_selects os c videoFile w Hsel)
      as (w1 & -> & Hs & Ho & Hc & Hp & Hl).
    rewrite <- Hs in T.
    rewrite (convert_scratch_failure os c videoFile err w1 Hv T).
    now rewrite Hs, Ho, Hc, Hp, Hl, <- app_assoc.
  - unfold Watch.process, bind, enter_pipeline.
    now rewrite (convert_scratch_failure os c videoFile err).
Qed.

Lemma process_scratch_failure_is_fatal_witness :
  process full_disk_os movies_config
    (start [vanished "gone.mov"; movie "a.mov" 100]) =
    Exits 1
      {| sys := machine [vanished "gone.mov"; movie "a.mov" 100]; stdout := [];
         logs := [error_record "no such file or directory";
                  critical_record (Err "no space left on device")];
         commands := []; pipeline := [] |}.
Proof.
  destruct (process_scratch_failure_is_fatal full_disk_os movies_config
              "/home/u/Movies/a.mov" "no space left on device"
              (start [vanished "gone.mov"; movie "a.mov" 100]))
    as [H _].
  - discriminate.
  - reflexivity.
  - rewrite H; [reflexivity|]. right. split; reflexivity.
Defined.

Lemma clipboard_written_works (os : OS) (text : string) (s : Sys) :
  (forall t s', ClipboardWriteErr os t s' = None) ->
  clipboard (clipboard_written os text s) = text.
Proof. intros H. unfold clipboard_written. now rewrite H. Qed.

Lemma paths_clipboard_written (os : OS) (text : string) (s : Sys) :
  paths (clipboard_written os text s) = paths s.
Proof. unfold clipboard_written. now destruct (ClipboardWriteErr os text s). Qed.

Lemma convert_publishes (os : OS) (c : Context) (videoFile suffix : string)
    (w : World) :
  String.eqb videoFile "" = false ->
  TempDirSuffix os "/tmp" "pngs" (sys w) = inr suffix ->
  exists w',
    convert os c videoFile w = Returns tt w' /\
    stdout w' =
      (stdout w ++
       if String.eqb (String_ c "bucket") "" then []
       else [gcs_url (String_ c "bucket")
               (outputFile
                  (Now (fst (CombinedOutput os
                               (ffmpeg_argv videoFile (scratch suffix))
                               (with_path (scratch suffix) (sys w))))))])%list /\
    (String.eqb (String_ c "bucket") "" = false ->
     (forall t s, ClipboardWriteErr os t s = None) ->
     clipboard (sys w') =
       gcs_url (String_ c "bucket")
         (outputFile
            (Now (fst (CombinedOutput os
                         (ffmpeg_argv videoFile (scratch suffix))
                         (with_path (scratch suffix) (sys w))))))).
Proof.
  intros Hv T. unfold convert, bind. rewrite Hv. simpl.
  unfold createTmpDir, bind, ioutil_TempDir, bind, get_sys. rewrite T.
  cbn [put_sys ret]. unfold defer, bind, createGif.
  rewrite runCmd_logs_and_returns. cbn [time_Now_Unix sys].
  rewrite runCmd_logs_and_returns.
  destruct (String.eqb (String_ c "bucket") "") eqn:Hb.
  - unfold uploadGCP. rewrite Hb. simpl.
    eexists. split; [reflexivity|]. split; [now rewrite app_nil_r|].
    discriminate.
  - match goal with
    | |- context [uploadGCP os ?b ?f ?k ?x] =>
        destruct (uploadGCP_runs os b f k x Hb) as (l3 & ->)
    end.
    eexists. split; [reflexivity|]. split; [reflexivity|].
    intros _ Hclip. unfold os_RemoveAll. cbn [sys set_sys clipboard].
    now apply clipboard_written_works.
Qed.

(** X9: with a video file and a scratch directory, [process] prints one
    line when a bucket is set, the public URL of the bucket object that
    bears the file name of the gif it encoded, and nothing when no bucket is
    set; the name is the clock reading taken after the frame extraction.
    On a machine where the clipboard write succeeds that URL is on the
    clipboard when [process] returns. *)
Theorem process_publishes_gif_url (os : OS) (c : Context)
    (videoFile suffix : string) (w : World) :
  hd_error (Args c) = Some videoFile \/
  (Args c = [] /\
   result (findNewestFile (String_ c "src") w) = Some videoFile) ->
  videoFile <> "" ->
  TempDirSuffix os "/tmp" "pngs" (sys w) = inr suffix ->
  exists w',
    process os c w = Returns tt w' /\
    stdout w' =
      (stdout w ++
       if String.eqb (String_ c "bucket") "" then []
       else [gcs_url (String_ c "bucket")
               (filepath.Base
                  (outfn c
                     (Now (fst (CombinedOutput os
                                  (ffmpeg_argv videoFile (scratch suffix))
                                  (with_path (scratch suffix) (sys w)))))))])%list /\
    (String_ c "bucket" <> "" ->
     (forall t s, ClipboardWriteErr os t s = None) ->
     clipboard (sys w') =
       gcs_url (String_ c "bucket")
         (filepath.Base
            (outfn c
               (Now (fst (CombinedOutput os
                            (ffmpeg_argv videoFile (scratch suffix))
                            (with_path (scratch suffix) (sys w)))))))).
Proof.
  intros Hsel Hv T. apply String.eqb_neq in Hv.
  destruct (process_selects os c videoFile w Hsel)
    as (w1 & -> & Hs & Ho1 & _).
  rewrite <- Hs in T |- *. rewrite <- Ho1.
  destruct (convert_publishes os c videoFile suffix w1 Hv T)
    as (w' & E & Ho & Hc).
  assert (B : forall n, filepath.Base (outfn c n) = outputFile n)
    by (intros n; apply outfn_directly_under_dist_or_src).
  exists w'. rewrite !B. split; [exact E|]. split; [exact Ho|].
  intros Hb. apply Hc. now apply String.eqb_neq.
Qed.

Lemma process_publishes_gif_url_witness :
  exists w',
    process quiet_os clip_config (start []) = Returns tt w' /\
    stdout w' = ["https://storage.googleapis.com/gifs/1700000000.gif"] /\
    clipboard (sys w') = "https://storage.googleapis.com/gifs/1700000000.gif".
Proof.
  destruct (process_publishes_gif_url quiet_os clip_config "/v/clip.mov" "7"
              (start []))
    as (w' & E & Ho & Hc).
  - left. reflexivity.
  - discriminate.
  - reflexivity.
  - exists w'. split; [exact E|]. split.
    + rewrite Ho. vm_compute. reflexivity.
    + rewrite Hc; [vm_compute; reflexivity | discriminate | reflexivity].
Defined.

(** X10: when [process] has a video file and a scratch directory, the frame
    pattern it hands to the frame extraction and the glob that ends the
    encoder's command line are both directly under the scratch directory
    that [ioutil.TempDir] made for the run, and that directory is gone from
    the disk when [process] returns. *)
Theorem frames_live_in_scratch (os : OS) (c : Context)
    (videoFile suffix : string) (w : World) :
  hd_error (Args c) = Some videoFile \/
  (Args c = [] /\
   result (findNewestFile (String_ c "src") w) = Some videoFile) ->
  videoFile <> "" ->
  TempDirSuffix os "/tmp" "pngs" (sys w) = inr suffix ->
  exists w' tmpfn infn before later,
    process os c w = Returns tt w' /\
    commands w' =
      (commands w ++
       ["ffmpeg"; "-i"; videoFile; tmpfn] ::
       ["/bin/sh"; "-c"; (before ++ " " ++ infn)%string] :: later)%list /\
    filepath.Dir tmpfn = filepath.Join ["/tmp"; "pngs" ++ suffix] /\
    filepath.Base tmpfn = "frame%04d.png" /\
    filepath.Dir infn = filepath.Join ["/tmp"; "pngs" ++ suffix] /\
    filepath.Base infn = "*.png" /\
    ~ In (filepath.Join ["/tmp"; "pngs" ++ suffix]) (paths (sys w')).
Proof.
  intros Hsel Hv T. apply String.eqb_neq in Hv.
  destruct (process_selects os c videoFile w Hsel)
    as (w1 & -> & Hs & _ & Hc & _).
  rewrite <- Hs in T. rewrite <- Hc.
  destruct (convert_runs os c videoFile suffix w1 Hv T) as (w' & E & _ & C).
  destruct (convert_removes_scratch os c videoFile w1 w' E)
    as (suffix' & T' & Hgone & _).
  rewrite T in T'. injection T' as <-.
  destruct (Join_file (scratch suffix) "frame%04d.png" eq_refl) as [D1 B1].
  destruct (Join_file (scratch suffix) "*.png" eq_refl) as [D2 B2].
  rewrite scratch_clean in D1, D2.
  exists w', (filepath.Join [scratch suffix; "frame%04d.png"]),
    (filepath.Join [scratch suffix; "*.png"]).
  eexists. eexists.
  split; [exact E|]. split.
  - rewrite C. unfold ffmpeg_argv, gifski_argv, cmdin.
    rewrite <- !append_assoc. reflexivity.
  - repeat split; assumption.
Qed.

Lemma frames_live_in_scratch_witness :
  exists w' tmpfn infn before later,
    process quiet_os clip_config (start []) = Returns tt w' /\
    commands w' =
      ["ffmpeg"; "-i"; "/v/clip.mov"; tmpfn] ::
      ["/bin/sh"; "-c"; (before ++ " " ++ infn)%string] :: later /\
    filepath.Dir tmpfn = "/tmp/pngs7" /\
    filepath.Base tmpfn = "frame%04d.png" /\
    filepath.Dir infn = "/tmp/pngs7" /\
    filepath.Base infn = "*.png" /\
    ~ In "/tmp/pngs7" (paths (sys w')).
Proof.
  destruct (frames_live_in_scratch quiet_os clip_config "/v/clip.mov" "7"
              (start []))
    as (w' & tmpfn & infn & before & later & E & C & D1 & B1 & D2 & B2 & G).
  - left. reflexivity.
  - discriminate.
  - reflexivity.
  - exists w', tmpfn, infn, before, later.
    repeat split; assumption.
Defined.

(** ** Further properties of the upload-only variant *)

(** X11: on a video file, [process] of the upload-only variant returns
    after uploading to each store that has a bucket, GCS first, then S3,
    whatever the first upload answered.  Both URLs carry the same object
    key, made once from the clock before the uploads; each is printed, and
    the clipboard ends with the S3 one when S3 has a bucket, else with the
    GCS one, on a machine where the clipboard write succeeds.  The S3 copy
    is given the key; the GCS copy is given only the bucket. *)
Theorem Upload_process_serves_both_stores (os : OS) (c : Context)
    (videoFile : string) (w : World) :
  videoFile <> "" ->
  exists w',
    Upload.process os c videoFile w = Returns tt w' /\
    commands w' =
      (commands w ++
       (if String.eqb (String_ c "gcp-bucket") "" then []
        else [gsutil_argv (String_ c "gcp-bucket") videoFile]) ++
       (if String.eqb (String_ c "s3-bucket") "" then []
        else [aws_argv (String_ c "s3-bucket") videoFile
                (Upload.bucketFile videoFile (Now (sys w)))]))%list /\
    stdout w' =
      (stdout w ++
       (if String.eqb (String_ c "gcp-bucket") "" then []
        else [gcs_url (String_ c "gcp-bucket")
                (Upload.bucketFile videoFile (Now (sys w)))]) ++
       (if String.eqb (String_ c "s3-bucket") "" then []
        else [s3_url (String_ c "s3-bucket")
                (Upload.bucketFile videoFile (Now (sys w)))]))%list /\
    ((forall t s, ClipboardWriteErr os t s = None) ->
     String_ c "s3-bucket" <> "" ->
     clipboard (sys w') =
       s3_url (String_ c "s3-bucket")
         (Upload.bucketFile videoFile (Now (sys w)))) /\
    ((forall t s, ClipboardWriteErr os t s = None) ->
     String_ c "s3-bucket" = "" -> String_ c "gcp-bucket" <> "" ->
     clipboard (sys w') =
       gcs_url (String_ c "gcp-bucket")
         (Upload.bucketFile videoFile (Now (sys w)))).
Proof.
  intros Hv. apply String.eqb_neq in Hv.
  unfold Upload.process, bind, enter_pipeline. rewrite Hv.
  cbn [log_Fatal ret time_Now_Unix sys].
  destruct (String.eqb (String_ c "gcp-bucket") "") eqn:Hg;
    destruct (String.eqb (String_ c "s3-bucket") "") eqn:Hs.
  - unfold uploadGCP, uploadS3. rewrite Hg, Hs. simpl.
    eexists. split; [reflexivity|]. rewrite !app_nil_r.
    apply String.eqb_eq in Hg, Hs.
    repeat split; auto; try congruence;
      intros Hclip; intros; cbn [sys]; try congruence;
      now apply clipboard_written_works.
  - unfold uploadGCP. rewrite Hg. cbn [ret].
    match goal with
    | |- context [uploadS3 os ?b ?f ?k ?x] =>
        destruct (uploadS3_runs os b f k x Hs) as (l & ->)
    end.
    eexists. split; [reflexivity|].
    apply String.eqb_neq in Hs.
    repeat split; auto; try congruence;
      intros Hclip; intros; cbn [sys]; try congruence;
      now apply clipboard_written_works.
  - match goal with
    | |- context [uploadGCP os ?b ?f ?k ?x] =>
        destruct (uploadGCP_runs os b f k x Hg) as (l & ->)
    end.
    unfold uploadS3. rewrite Hs. cbn [ret].
    eexists. split; [reflexivity|]. cbn [commands stdout sys].
    rewrite !app_nil_r.
    apply String.eqb_eq in Hs.
    repeat split; auto; try congruence;
      intros Hclip; intros; cbn [sys]; try congruence;
      now apply clipboard_written_works.
  - match goal with
    | |- context [uploadGCP os ?b ?f ?k ?x] =>
        destruct (uploadGCP_runs os b f k x Hg) as (l & ->)
    end.
    match goal with
    | |- context [uploadS3 os ?b ?f ?k ?x] =>
        destruct (uploadS3_runs os b f k x Hs) as (l' & ->)
    end.
    eexists. split; [reflexivity|]. cbn [commands stdout sys].
    rewrite <- !app_assoc.
    apply String.eqb_neq in Hs.
    repeat split; auto; try congruence;
      intros Hclip; intros; cbn [sys]; try congruence;
      now apply clipboard_written_works.
Qed.

Lemma Upload_process_serves_both_stores_witness :
  exists w',
    Upload.process failing_os stores_config "/v/clip.mov" (start []) =
      Returns tt w' /\
    commands w' =
      [["gsutil"; "cp"; "/v/clip.mov"; "gs://gifs"];
       ["aws"; "s3"; "cp"; "/v/clip.mov"; "s3://clips/clip_1700000000.mov";
        "--acl"; "public-read"]] /\
    stdout w' =
      ["https://storage.googleapis.com/gifs/clip_1700000000.mov";
       "https://clips.s3.amazonaws.com/clip_1700000000.mov"] /\
    clipboard (sys w') = "https://clips.s3.amazonaws.com/clip_1700000000.mov".
Proof.
  destruct (Upload_process_serves_both_stores failing_os stores_config
              "/v/clip.mov" (start []))
    as (w' & E & Hc & Ho & Hs & _); [discriminate|].
  exists w'. split; [exact E|].
  rewrite Hc, Ho, Hs; [|reflexivity|discriminate].
  vm_compute. repeat split; reflexivity.
Defined.

Lemma substring_all (s : string) : String.substring 0 (String.length s) s = s.
Proof. induction s as [|c s IH]; simpl; [reflexivity | now rewrite IH]. Qed.

Lemma substring_append_l (a b : string) :
  String.substring 0 (String.length a) (a ++ b) = a.
Proof.
  induction a as [|c a IH]; simpl; [now destruct b | now rewrite IH].
Qed.

Lemma substring_append_r (a b : string) :
  String.substring (String.length a) (String.length b) (a ++ b) = b.
Proof.
  induction a as [|c a IH]; simpl; [apply substring_all | exact IH].
Qed.

(** Trimming a suffix that is there gives the part before it. *)
Lemma TrimSuffix_append (a b : string) : strings.TrimSuffix (a ++ b) b = a.
Proof.
  unfold strings.TrimSuffix, strings.HasSuffix.
  rewrite length_append.
  replace (String.length a + String.length b - String.length b)%nat
    with (String.length a) by lia.
  rewrite substring_append_r, String.eqb_refl, substring_append_l.
  replace (String.length b <=? String.length a + String.length b)%nat
    with true by (symmetry; apply Nat.leb_le; lia).
  reflexivity.
Qed.

(** The extension of an element is a suffix of it. *)
Lemma ext_from_suffix (e : string) :
  exists stem, e = stem ++ filepath.ext_from e.
Proof.
  induction e as [|c e [stem IH]]; simpl; [now exists ""|].
  destruct (filepath.ext_from e) as [|d x] eqn:E.
  - destruct (Ascii.eqb c "."%char).
    + now exists "".
    + exists (String c e). now rewrite append_nil_r.
  - exists (String c stem). simpl. now rewrite <- IH.
Qed.

Lemma Base_last_element (p e : string) :
  last (filepath.elements p) "" = e -> String.eqb e "" = false ->
  filepath.Base p = e.
Proof.
  intros Hl He. unfold filepath.Base.
  destruct (String.eqb p "") eqn:Hp.
  - apply String.eqb_eq in Hp. subst p. simpl in Hl. subst e. discriminate.
  - rewrite (app_removelast_last "" (elements_not_nil p)), Hl.
    rewrite filter_app. simpl filter. rewrite He. simpl negb. cbv iota.
    apply match_last.
Qed.

Lemma last_no_sep (p : string) :
  filepath.no_sep (last (filepath.elements p) "") = true.
Proof.
  pose proof (elements_all_no_sep p) as H. rewrite Forall_forall in H.
  apply H.
  rewrite (app_removelast_last "" (elements_not_nil p)) at 2.
  apply in_or_app. right. now left.
Qed.

(** X12: for a video path that does not end in a separator, the object key
    is the file name with an underscore and the clock reading, in decimal,
    put in before the extension: the stem and the extension together are the
    base name of the path, and the key has no separator in it. *)
Theorem bucketFile_stamps_before_extension (videoFile : string) (now : Z) :
  last (filepath.elements videoFile) "" <> "" ->
  exists stem,
    filepath.Base videoFile = stem ++ filepath.Ext videoFile /\
    Upload.bucketFile videoFile now =
      stem ++ "_" ++ fmt.d now ++ filepath.Ext videoFile /\
    filepath.no_sep (Upload.bucketFile videoFile now) = true.
Proof.
  intros Hlast. apply String.eqb_neq in Hlast.
  pose proof (Base_last_element videoFile _ eq_refl Hlast) as HB.
  pose proof (last_no_sep videoFile) as Hns.
  unfold Upload.bucketFile, filepath.Ext. rewrite HB.
  destruct (ext_from_suffix (last (filepath.elements videoFile) ""))
    as (stem & E).
  remember (last (filepath.elements videoFile) "") as e eqn:He.
  remember (filepath.ext_from e) as x eqn:Hx.
  clear He Hx HB Hlast. subst e.
  exists stem. rewrite TrimSuffix_append.
  rewrite no_sep_append in Hns. apply andb_prop in Hns as [Hs Hx].
  repeat split; auto.
  rewrite !no_sep_append, Hs, Hx, no_sep_fmt_d. reflexivity.
Qed.

Lemma bucketFile_stamps_before_extension_witness :
  exists stem,
    filepath.Base "/v/my.clip.mov" = stem ++ filepath.Ext "/v/my.clip.mov" /\
    Upload.bucketFile "/v/my.clip.mov" 1700000000 =
      stem ++ "_" ++ fmt.d 1700000000 ++ filepath.Ext "/v/my.clip.mov" /\
    filepath.no_sep (Upload.bucketFile "/v/my.clip.mov" 1700000000) = true.
Proof.
  apply (bucketFile_stamps_before_extension "/v/my.clip.mov" 1700000000).
  discriminate.
Defined.

(** ** Further properties of watch mode and of the entry points *)

(** X13: as long as no event received includes creation, the watcher's loop
    only logs: it returns, runs no command, prints nothing, leaves the
    machine alone and enters the pipeline on nothing, whatever the pipeline
    is; it logs one record for each delivery, errors included. *)
Theorem eventLoop_without_creation_only_logs
    (P : Context -> string -> M unit) (c : Context)
    (received : list Received) (w : World) :
  creations received = [] ->
  exists w',
    eventLoop P c received w = Returns tt w' /\
    sys w' = sys w /\ stdout w' = stdout w /\ commands w' = commands w /\
    pipeline w' = pipeline w /\
    List.length (logs w') = (List.length (logs w) + List.length received)%nat.
Proof.
  revert w. induction received as [|[event|err] rest IH]; intros w Hc; simpl.
  - exists w. repeat split; auto.
  - simpl in Hc. unfold bind, log_Debug, log_call, ret. rewrite Create_test.
    destruct (includes_creation (fsnotify.EventOp event)); [discriminate|].
    match goal with
    | |- context [eventLoop P c rest ?x] =>
        destruct (IH x Hc) as (w' & E & Hs & Ho & Hcm & Hp & Hl)
    end.
    exists w'. repeat split; auto.
    rewrite Hl. simpl. rewrite length_app. simpl. lia.
  - simpl in Hc. unfold bind, log_Debug, log_call.
    match goal with
    | |- context [eventLoop P c rest ?x] =>
        destruct (IH x Hc) as (w' & E & Hs & Ho & Hcm & Hp & Hl)
    end.
    exists w'. repeat split; auto.
    rewrite Hl. simpl. rewrite length_app. simpl. lia.
Qed.

Lemma eventLoop_without_creation_only_logs_witness :
  exists w',
    eventLoop (Watch.process failing_os) clip_config
      [written "/v/a.mov"; FromErrors "queue overflow"; removed "/v/a.mov"]
      (start []) = Returns tt w' /\
    sys w' = machine [] /\ stdout w' = [] /\ commands w' = [] /\
    pipeline w' = [] /\ List.length (logs w') = 3%nat.
Proof.
  apply (eventLoop_without_creation_only_logs (Watch.process failing_os)
           clip_config
           [written "/v/a.mov"; FromErrors "queue overflow"; removed "/v/a.mov"]
           (start [])).
  reflexivity.
Defined.

(** X14: when the watcher cannot be made, or the source directory cannot
    be added to it, [watch] logs the error at CRITICAL and the program exits
    with status 1: no delivery is handled, no command run. *)
Theorem watch_setup_failure_is_fatal (os : OS) (c : Context)
    (received : list Received) (w : World) (err : error) :
  (NewWatcherErr os (sys w) = Some err ->
   Watch.watch os c received w =
     Exits 1
       {| sys := sys w; stdout := stdout w;
          logs := (logs w ++ [critical_record (Err err)])%list;
          commands := commands w; pipeline := pipeline w |} /\
   Upload.watch os c received w =
     Exits 1
       {| sys := sys w; stdout := stdout w;
          logs := (logs w ++ [critical_record (Err err)])%list;
          commands := commands w; pipeline := pipeline w |}) /\
  (NewWatcherErr os (sys w) = None ->
   AddErr os (String_ c "src") (sys w) = Some err ->
   Watch.watch os c received w =
     Exits 1
       {| sys := sys w; stdout := stdout w;
          logs := (logs w ++
                   [{| level := DEBUG;
                       operands := [Str ("Watching " ++ String_ c "src")] |};
                    critical_record (Err err)])%list;
          commands := commands w; pipeline := pipeline w |} /\
   Upload.watch os c received w =
     Exits 1
       {| sys := sys w; stdout := stdout w;
          logs := (logs w ++
                   [{| level := DEBUG;
                       operands := [Str ("Watching " ++ String_ c "src")] |};
                    critical_record (Err err)])%list;
          commands := commands w; pipeline := pipeline w |}).
Proof.
  split.
  - intros HN. unfold Watch.watch, Upload.watch, watch_with, bind, get_sys.
    rewrite HN. split; reflexivity.
  - intros HN HA.
    unfold Watch.watch, Upload.watch, watch_with, bind, get_sys.
    rewrite HN. unfold log_Debug, log_call. cbn [sys]. rewrite HA.
    unfold log_Fatal, log_call, critical_record. cbn.
    rewrite <- !app_assoc. split; reflexivity.
Qed.

Lemma watch_setup_failure_is_fatal_witness :
  returned
    (Watch.watch unwatchable_os clip_config [created "/v/b.mov"] (start []))
  = false.
Proof.
  destruct (watch_setup_failure_is_fatal unwatchable_os clip_config
              [created "/v/b.mov"] (start []) "no such file or directory")
    as [_ H].
  destruct (H eq_refl eq_refl) as [E _].
  rewrite E. reflexivity.
Defined.

(** X16: a log level name that [logging.LogLevel] refuses ends every entry
    point at once: the error is logged at CRITICAL and the program exits
    with status 1 before any directory is read, any watcher made or any
    command run. *)
Theorem Action_refused_level_is_fatal (LogLevel : string -> error + Level)
    (os : OS) (c : Context) (received : list Received) (w : World)
    (err : error) :
  LogLevel (String_ c "log") = inl err ->
  Action LogLevel os c w =
    Exits 1
      {| sys := sys w; stdout := stdout w;
         logs := (logs w ++ [critical_record (Str err)])%list;
         commands := commands w; pipeline := pipeline w |} /\
  Action_watch LogLevel os c received w =
    Exits 1
      {| sys := sys w; stdout := stdout w;
         logs := (logs w ++ [critical_record (Str err)])%list;
         commands := commands w; pipeline := pipeline w |} /\
  Action_upload LogLevel os c received w =
    Exits 1
      {| sys := sys w; stdout := stdout w;
         logs := (logs w ++ [critical_record (Str err)])%list;
         commands := commands w; pipeline := pipeline w |}.
Proof.
  intros HL.
  unfold Action, Action_watch, Action_upload, Action_with, initLogging, bind.
  rewrite HL. repeat split; reflexivity.
Qed.

Lemma Action_refused_level_is_fatal_witness :
  returned (Action logging.LogLevel quiet_os clip_config (start [])) = false.
Proof.
  destruct (Action_refused_level_is_fatal logging.LogLevel quiet_os clip_config
              [] (start []) "logger: invalid log level" eq_refl)
    as [E _].
  rewrite E. reflexivity.
Defined.

Lemma Join_name_not_empty (d n : string) :
  n <> "" -> filepath.Join [d; n] <> "".
Proof.
  intros Hn. apply String.eqb_neq in Hn. apply String.eqb_neq.
  simpl filepath.Join. destruct (String.eqb d ""); [rewrite Hn|];
    apply Clean_not_empty.
Qed.

(** X17: run without an argument, [process] converts the video that the
    scan finds: when the first entry carrying the greatest time among the
    entries compared is after the epoch and has a name, and the scratch
    directory can be made, the frame extraction is the next command run and
    its input is the path of that entry under [src]. *)
Theorem process_converts_newest_video (os : OS) (c : Context) (w : World)
    (l1 l2 : list DirEntry) (e : DirEntry) (t : Z) (suffix : string) :
  Args c = [] ->
  ReadDir (sys w) (String_ c "src") = (l1 ++ e :: l2)%list ->
  candidate e = Some t ->
  0 < t ->
  (forall f u, In f l1 -> candidate f = Some u -> u < t) ->
  (forall f u, In f l2 -> candidate f = Some u -> u <= t) ->
  Name e <> "" ->
  TempDirSuffix os "/tmp" "pngs" (sys w) = inr suffix ->
  exists w' later,
    process os c w = Returns tt w' /\
    commands w' =
      (commands w ++
       ffmpeg_argv (filepath.Join [String_ c "src"; Name e]) (scratch suffix)
       :: later)%list.
Proof.
  intros Hargs Hfiles He Hpos H1 H2 Hname T.
  pose proof (findNewestFile_tie_first_wins_aux _ _ _ _ _ _ Hfiles He Hpos H1 H2)
    as R.
  unfold process, bind. rewrite Hargs. cbn [List.length Nat.leb].
  destruct (findNewestFile_pick (String_ c "src") w) as (w1 & E1 & L).
  destruct (findNewestFile (String_ c "src") w) as [p w2|]; [|discriminate].
  injection R as ->. injection E1 as _ ->.
  destruct L as (Hs & _ & Hc & _).
  rewrite <- Hs in T. rewrite <- Hc.
  pose proof (Join_name_not_empty (String_ c "src") (Name e) Hname) as Hv.
  apply String.eqb_neq in Hv.
  destruct (convert_runs os c _ suffix w1 Hv T) as (w' & E & _ & C).
  exists w'. eexists. split; [exact E | exact C].
Qed.

Lemma process_converts_newest_video_witness :
  exists w' later,
    process quiet_os movies_config
      (start [movie "old.mov" 50; document "n.txt" 900; movie "new.mov" 300])
    = Returns tt w' /\
    commands w' =
      ["ffmpeg"; "-i"; "/home/u/Movies/new.mov"; "/tmp/pngs7/frame%04d.png"]
      :: later.
Proof.
  destruct (process_converts_newest_video quiet_os movies_config
              (start [movie "old.mov" 50; document "n.txt" 900;
                      movie "new.mov" 300])
              [movie "old.mov" 50; document "n.txt" 900] []
              (movie "new.mov" 300) 300 "7")
    as (w' & later & E & C).
  - reflexivity.
  - reflexivity.
  - reflexivity.
  - lia.
  - intros f u [<-|[<-|[]]] K; [injection K; lia | discriminate K].
  - intros f u [].
  - discriminate.
  - reflexivity.
  - exists w', later. split; [exact E|]. rewrite C. vm_compute. reflexivity.
Defined.

Lemma convert_footprint (os : OS) (c : Context) (videoFile suffix : string)
    (w : World) :
  (forall argv s, paths (fst (CombinedOutput os argv s)) = paths s) ->
  String.eqb videoFile "" = false ->
  TempDirSuffix os "/tmp" "pngs" (sys w) = inr suffix ->
  exists w',
    convert os c videoFile w = Returns tt w' /\
    paths (sys w') = filter (outside (scratch suffix)) (paths (sys w)).
Proof.
  intros Hq Hv T. unfold convert, bind. rewrite Hv. simpl.
  unfold createTmpDir, bind, ioutil_TempDir, bind, get_sys. rewrite T.
  cbn [put_sys ret]. unfold defer, bind, createGif.
  rewrite runCmd_logs_and_returns. cbn [time_Now_Unix sys].
  rewrite runCmd_logs_and_returns.
  destruct (scratch_removable suffix) as [Hne Hdot].
  assert (F : filter (outside (scratch suffix))
                (paths (with_path (scratch suffix) (sys w)))
              = filter (outside (scratch suffix)) (paths (sys w))).
  { simpl. unfold outside at 1. now rewrite String.eqb_refl. }
  destruct (String.eqb (String_ c "bucket") "") eqn:Hb.
  - unfold uploadGCP. rewrite Hb. cbn [ret].
    unfold os_RemoveAll. fold (scratch suffix). rewrite Hne, Hdot.
    eexists. split; [reflexivity|].
    cbn [sys set_sys paths orb]. rewrite !Hq. exact F.
  - match goal with
    | |- context [uploadGCP os ?b ?f ?k ?x] =>
        destruct (uploadGCP_runs os b f k x Hb) as (l3 & ->)
    end.
    unfold os_RemoveAll. fold (scratch suffix). rewrite Hne, Hdot.
    eexists. split; [reflexivity|].
    cbn [sys set_sys paths orb]. rewrite paths_clipboard_written, !Hq.
    exact F.
Qed.

(** X18: when the external commands leave the set of paths alone, what
    [process] of either converting revision does to the disk itself is
    nothing but the removal of its scratch directory, whether the video file
    came from the command line or from the scan: after it returns the paths
    are those from before that are neither the scratch directory nor below
    it. *)
Theorem process_disk_footprint (os : OS) (c : Context)
    (videoFile suffix : string) (w : World) :
  (forall argv s, paths (fst (CombinedOutput os argv s)) = paths s) ->
  videoFile <> "" ->
  TempDirSuffix os "/tmp" "pngs" (sys w) = inr suffix ->
  (hd_error (Args c) = Some videoFile \/
   (Args c = [] /\
    result (findNewestFile (String_ c "src") w) = Some videoFile) ->
   exists w',
     process os c w = Returns tt w' /\
     paths (sys w') = filter (outside (scratch suffix)) (paths (sys w))) /\
  exists w',
    Watch.process os c videoFile w = Returns tt w' /\
    paths (sys w') = filter (outside (scratch suffix)) (paths (sys w)).
Proof.
  intros Hq Hv T. apply String.eqb_neq in Hv. split.
  - intros Hsel.
    destruct (process_selects os c videoFile w Hsel) as (w1 & -> & Hs & _).
    rewrite <- Hs in T |- *.
    now apply convert_footprint.
  - unfold Watch.process, bind, enter_pipeline.
    match goal with
    | |- context [convert os c videoFile ?x] =>
        exact (convert_footprint os c videoFile suffix x Hq Hv T)
    end.
Qed.

Lemma process_disk_footprint_witness :
  exists w',
    process quiet_os movies_config
      {| sys := {| ReadDir := fun _ => [movie "a.mov" 100];
                   paths := ["/tmp/pngs7/stale.png"; "/tmp/pngs70"; "/v"];
                   clipboard := ""; Now := 5 |};
         stdout := []; logs := []; commands := []; pipeline := [] |}
    = Returns tt w' /\
    paths (sys w') = ["/tmp/pngs70"; "/v"].
Proof.
  destruct (process_disk_footprint quiet_os movies_config
              "/home/u/Movies/a.mov" "7"
              {| sys := {| ReadDir := fun _ => [movie "a.mov" 100];
                           paths := ["/tmp/pngs7/stale.png"; "/tmp/pngs70"; "/v"];
                           clipboard := ""; Now := 5 |};
                 stdout := []; logs := []; commands := []; pipeline := [] |})
    as [H _].
  - reflexivity.
  - discriminate.
  - reflexivity.
  - destruct H as (w' & E & P); [right; split; reflexivity|].
    exists w'. split; [exact E|]. rewrite P. vm_compute. reflexivity.
Defined.
